(** * Patrones_COBOL_Lib: comment-line classifier and block extractor

    A shallow embedding of [src/modulos/patrones_commentarios_cbl.py].

    Python strings are sequences of Unicode code points: a [str] is a
    [list N].  Indexing past the end raises [IndexError], so every function
    of the module that indexes a line lives in the [result] monad. *)

From Stdlib Require Import NArith String Ascii Sorted.
From stdpp Require Import base option list gmap.

Local Open Scope nat_scope.

(** ** Python values *)

Abbreviation str := (list N).

(** Code points of a Rocq string literal, to write Python literals. *)
Fixpoint py (s : string) : str :=
  match s with
  | EmptyString => []
  | String a s' => N_of_ascii a :: py s'
  end.
Arguments py s%_string.

Definition LF : N := 10%N.
Definition CR : N := 13%N.
Definition TAB : N := 9%N.
Definition space : N := 32%N.
Definition star : N := 42%N.

(** ** Exceptions *)

Inductive exn : Type := IndexError.

Inductive result (A : Type) : Type :=
  | Ok (a : A)
  | Raise (e : exn).
Arguments Ok {A} a.
Arguments Raise {A} e.

#[global] Instance result_ret : MRet result := @Ok.
#[global] Instance result_bind : MBind result := λ A B f m,
  match m with
  | Ok a => f a
  | Raise e => Raise e
  end.

(** [linea[i]] for a non-negative [i]. *)
Definition getitem (s : str) (i : nat) : result N :=
  match s !! i with
  | Some c => Ok c
  | None => Raise IndexError
  end.

(** ** String methods of the Python runtime *)

(** [str.isspace] on one code point: the characters [str.strip] removes. *)
Definition isspace (c : N) : bool :=
  (((0x09 <=? c) && (c <=? 0x0D)) || ((0x1C <=? c) && (c <=? 0x20))
   || (c =? 0x85) || (c =? 0xA0) || (c =? 0x1680)
   || ((0x2000 <=? c) && (c <=? 0x200A))
   || (c =? 0x2028) || (c =? 0x2029) || (c =? 0x202F) || (c =? 0x205F)
   || (c =? 0x3000))%N.

(** The line boundaries of [str.splitlines]. *)
Definition is_linebreak (c : N) : bool :=
  (((0x0A <=? c) && (c <=? 0x0D)) || ((0x1C <=? c) && (c <=? 0x1E))
   || (c =? 0x85) || (c =? 0x2028) || (c =? 0x2029))%N.

Fixpoint lstrip (s : str) : str :=
  match s with
  | [] => []
  | c :: t => if isspace c then lstrip t else s
  end.

Fixpoint rstrip (s : str) : str :=
  match s with
  | [] => []
  | c :: t =>
      match rstrip t with
      | [] => if isspace c then [] else [c]
      | r => c :: r
      end
  end.

Definition strip (s : str) : str := rstrip (lstrip s).

(** [s.replace(old, new)] for a one-character [old]. *)
Definition replace1 (old : N) (new : str) (s : str) : str :=
  flat_map (λ c, if (c =? old)%N then new else [c]) s.

(** [sep.join(xs)]. *)
Fixpoint join (sep : str) (xs : list str) : str :=
  match xs with
  | [] => []
  | x :: rest =>
      match rest with
      | [] => x
      | _ :: _ => x ++ sep ++ join sep rest
      end
  end.

(** [texto.splitlines()]: [cur] is the line being read.  A line ends at a
    line boundary, ["\r\n"] counting as one; a final line with no boundary
    after it is kept when it is not empty. *)
Fixpoint splitlines_from (cur : str) (s : str) : list str :=
  match s with
  | [] => match cur with [] => [] | _ :: _ => [cur] end
  | c :: t =>
      if is_linebreak c then
        if (c =? CR)%N then
          match t with
          | c' :: t' =>
              if (c' =? LF)%N then cur :: splitlines_from [] t'
              else cur :: splitlines_from [] t
          | [] => cur :: splitlines_from [] t
          end
        else cur :: splitlines_from [] t
      else splitlines_from (cur ++ [c]) t
  end.

Definition splitlines (s : str) : list str := splitlines_from [] s.

(** [needle in hay]. *)
Fixpoint startswith (hay needle : str) : bool :=
  match needle, hay with
  | [], _ => true
  | _ :: _, [] => false
  | n :: needle', h :: hay' => (h =? n)%N && startswith hay' needle'
  end.

Fixpoint contains (needle hay : str) : bool :=
  startswith hay needle ||
  match hay with
  | [] => false
  | _ :: hay' => contains needle hay'
  end.

(** ** The fragment of [re] that the module uses

    A pattern is a sequence of atoms; [re.match] anchors it at the start of
    the string.  Without [re.MULTILINE], [^] holds at the start only and [$]
    at the end or just before a newline that ends the string. *)

Inductive atom : Type :=
  | Bol                              (* ^ *)
  | Eol                              (* $ *)
  | Lit (c : N)                      (* \* *)
  | Class (ranges : list (N * N)).   (* [A-Za-z] *)

Definition in_class (ranges : list (N * N)) (c : N) : bool :=
  existsb (λ r, (fst r <=? c)%N && (c <=? snd r)%N) ranges.

Definition at_eol (rest : str) : bool :=
  match rest with
  | [] => true
  | [c] => (c =? LF)%N
  | _ => false
  end.

Fixpoint match_here (pat : list atom) (at_start : bool) (rest : str) : bool :=
  match pat with
  | [] => true
  | Bol :: pat' => at_start && match_here pat' at_start rest
  | Eol :: pat' => at_eol rest && match_here pat' at_start rest
  | Lit c :: pat' =>
      match rest with
      | d :: rest' => (d =? c)%N && match_here pat' false rest'
      | [] => false
      end
  | Class rs :: pat' =>
      match rest with
      | d :: rest' => in_class rs d && match_here pat' false rest'
      | [] => false
      end
  end.

(** [bool(re.match(pat, s))]. *)
Definition re_match (pat : list atom) (s : str) : bool := match_here pat true s.

(** ** The module [patrones_commentarios_cbl] *)

(** [es_separador(linea)]. *)
Definition es_separador (linea : str) : result bool :=
  if bool_decide (length linea < 10) then mret false
  else
    c ← getitem linea 6;
    if bool_decide (c ≠ star) then mret false
    else
      let contenido := replace1 space [] (strip (drop 7 linea)) in
      mret (bool_decide (5 ≤ length contenido)
            && bool_decide (size (list_to_set contenido : gset N) = 1)).

(** The test [len(linea) > 6 and linea[6] == '*'] that the three loops over
    [lineas] share; [and] evaluates its right operand only when the left one
    holds. *)
Definition columna_7_asterisco (linea : str) : result bool :=
  if bool_decide (6 < length linea) then
    c ← getitem linea 6; mret (bool_decide (c = star))
  else mret false.

(** The loop of [obtener_lineas_comentadas]: [i] is the index that
    [enumerate] gives to the head of [lineas], [comentadas] the list built so
    far. *)
Fixpoint bucle_lineas_comentadas (i : nat) (lineas : list str)
    (comentadas : list (nat * str)) : result (list (nat * str)) :=
  match lineas with
  | [] => mret comentadas
  | linea :: resto =>
      a ← columna_7_asterisco linea;
      b ← (if a : bool then s ← es_separador linea; mret (negb s)
           else mret false);
      bucle_lineas_comentadas (S i) resto
        (if b : bool then comentadas ++ [(i + 1, rstrip linea)]
         else comentadas)
  end.

Definition obtener_lineas_comentadas (lineas : list str)
    : result (list (nat * str)) :=
  bucle_lineas_comentadas 0 lineas [].

(** The loop of [obtener_num_lineas_comentadas]. *)
Fixpoint bucle_num_lineas (lineas : list str) (total_lineas : nat)
    : result nat :=
  match lineas with
  | [] => mret total_lineas
  | linea :: resto =>
      a ← columna_7_asterisco linea;
      bucle_num_lineas resto
        (if a : bool then total_lineas + 1 else total_lineas)
  end.

Definition obtener_num_lineas_comentadas (lineas : list str) : result nat :=
  bucle_num_lineas lineas 0.

(** The pattern [r"^\*\*[A-Za-z]\*$"]. *)
Definition patron_etiqueta : list atom :=
  [Bol; Lit star; Lit star; Class [(65%N, 90%N); (97%N, 122%N)]; Lit star; Eol].

Definition es_patron_etiqueta (linea : str) : bool :=
  re_match patron_etiqueta (strip linea).

(** The local variables of [ext_bloq_comentados_patron_etiqueta]. *)
Record estado : Type := Estado {
  bloques : list str;
  bloque_actual : list str;
  dentro_bloque : bool;
}.

(** One iteration of its loop. *)
Definition paso (st : estado) (linea : str) : estado :=
  if es_patron_etiqueta linea then
    if dentro_bloque st then
      let bloque_actual' := bloque_actual st ++ [linea] in
      Estado (bloques st ++ [join [LF] bloque_actual']) [] false
    else
      Estado (bloques st) (bloque_actual st ++ [linea]) true
  else if dentro_bloque st then
    Estado (bloques st) (bloque_actual st ++ [linea]) (dentro_bloque st)
  else st.

Definition estado_inicial : estado := Estado [] [] false.

Definition recorrer (lineas : list str) (st : estado) : estado :=
  foldl paso st lineas.

Definition ext_bloq_comentados_patron_etiqueta (texto : str) : list str :=
  bloques (recorrer (splitlines texto) estado_inicial).

Section Display.
(** [str.upper] maps every code point through the full uppercase mapping
    of the Unicode database, which the source takes from the Python
    runtime: it is a parameter here. *)
Variable toupper_full : N → str.

Definition upper (s : str) : str := flat_map toupper_full s.

Definition DISPLAY : str := py "DISPLAY".

(** The loop of [obtener_lineas_comentadas_con_display]. *)
Fixpoint bucle_con_display (i : nat) (lineas : list str)
    (resultado : list (nat * str)) : result (list (nat * str)) :=
  match lineas with
  | [] => mret resultado
  | linea :: resto =>
      a ← columna_7_asterisco linea;
      let b := (a : bool) && contains DISPLAY (upper linea) in
      bucle_con_display (S i) resto
        (if b then resultado ++ [(i + 1, rstrip linea)] else resultado)
  end.

Definition obtener_lineas_comentadas_con_display (lineas : list str)
    : result (list (nat * str)) :=
  bucle_con_display 0 lineas [].
End Display.

(** The uppercase mapping restricted to ASCII, where it is a one-to-one
    table: [a]..[z] go to [A]..[Z], every other ASCII code point to itself.
    Code points from 128 on are left alone by this instance. *)
Definition ascii_toupper (c : N) : N :=
  if ((97 <=? c) && (c <=? 122))%N then (c - 32)%N else c.

Definition toupper_ascii_only (c : N) : str := [ascii_toupper c].

(** ** Vocabulary of the statements *)

(** A comment line: longer than six characters, with [*] at offset 6. *)
Definition comentada (linea : str) : Prop :=
  6 < length linea ∧ linea !! 6 = Some star.

#[global] Instance comentada_dec linea : Decision (comentada linea).
Proof. unfold comentada. apply _. Defined.

#[global] Instance exn_eq_dec : EqDecision exn.
Proof. solve_decision. Defined.

#[global] Instance result_eq_dec `{EqDecision A} : EqDecision (result A).
Proof. solve_decision. Defined.

(** An ASCII letter, the class [[A-Za-z]]. *)
Definition letra (c : N) : Prop :=
  (65 ≤ c ∧ c ≤ 90)%N ∨ (97 ≤ c ∧ c ≤ 122)%N.

(** What the two collecting loops build from [lineas], the head of which has
    index [i]: the lines that satisfy [P], each with its index plus one and
    without its trailing whitespace. *)
Fixpoint numeradas (P : str → Prop) `{∀ l, Decision (P l)} (i : nat)
    (lineas : list str) : list (nat * str) :=
  match lineas with
  | [] => []
  | linea :: resto =>
      (if decide (P linea) then [(i + 1, rstrip linea)] else [])
      ++ numeradas P (S i) resto
  end.

(** [recortada linea c]: [c] is [linea] without its trailing whitespace,
    that is, [linea] is [c] followed by whitespace only and [c] does not end
    in whitespace. *)
Definition recortada (linea c : str) : Prop :=
  ∃ ws, linea = c ++ ws
        ∧ Forall (λ x, isspace x = true) ws
        ∧ ∀ x, last c = Some x → isspace x = false.

(** [needle] occurs in [hay]. *)
Definition ocurre_en (needle hay : str) : Prop :=
  ∃ pre post, hay = pre ++ needle ++ post.

Definition es_ascii (c : N) : Prop := (c < 128)%N.

(** A character that is not a line boundary. *)
Definition sin_salto (c : N) : Prop := is_linebreak c = false.

Definition sin_etiquetas (lineas : list str) : Prop :=
  Forall (λ linea, es_patron_etiqueta linea = false) lineas.

(** [emparejado lineas bs]: [bs] are the blocks of [lineas], one for each
    opening label line that a later label line closes, in order.  A label
    line opens a block when none is open; the next label line closes it. *)
Inductive emparejado : list str → list str → Prop :=
  | emparejado_nada lineas :
      sin_etiquetas lineas →
      emparejado lineas []
  | emparejado_sin_cierre pre apertura resto :
      sin_etiquetas pre →
      es_patron_etiqueta apertura = true →
      sin_etiquetas resto →
      emparejado (pre ++ apertura :: resto) []
  | emparejado_par pre apertura medio cierre resto bs :
      sin_etiquetas pre →
      es_patron_etiqueta apertura = true →
      sin_etiquetas medio →
      es_patron_etiqueta cierre = true →
      emparejado resto bs →
      emparejado (pre ++ apertura :: medio ++ cierre :: resto)
                 (join [LF] (apertura :: medio ++ [cierre]) :: bs).

(** *** The specification's wording, where it differs from the source *)

(** [is_separator] as the specification words it: after trimming, ALL
    whitespace is removed from the rest of the line. *)
Definition is_separator_spec (line : str) : bool :=
  if bool_decide (length line < 10) then false
  else
    match line !! 6 with
    | None => false
    | Some c =>
        if bool_decide (c ≠ star) then false
        else
          let rest := filter (λ c, isspace c = false) (strip (drop 7 line)) in
          bool_decide (5 ≤ length rest)
          && bool_decide (size (list_to_set rest : gset N) = 1)
    end.

(** The content of a collected pair as the specification words it: the line
    with only its trailing line terminators removed. *)
Fixpoint strip_line_terminators (line : str) : str :=
  match line with
  | [] => []
  | c :: t =>
      match strip_line_terminators t with
      | [] => if is_linebreak c then [] else [c]
      | r => c :: r
      end
  end.

(** ** [cargar_palabras_reservadas] and the file it reads *)

(** What [open(ruta, 'r', encoding='utf-8')] and the reading of the file give
    for a path that exists: the decoded text, or an exception other than
    [FileNotFoundError] (no permission, a directory, bytes that are not
    UTF-8) with its message [str(e)].  A file system maps the paths that
    exist; [open] raises [FileNotFoundError] for the others. *)
Inductive fichero : Type :=
  | Legible (texto : str)
  | Ilegible (mensaje : str).

(** [for linea in f]: the lines of a text file, each with its end.  The file
    is opened with universal newlines, so ["\r"] and ["\r\n"] read as
    ["\n"], and only these end a line. *)
Fixpoint lineas_de_fichero_from (cur : str) (s : str) : list str :=
  match s with
  | [] => match cur with [] => [] | _ :: _ => [cur] end
  | c :: t =>
      if (c =? LF)%N then (cur ++ [LF]) :: lineas_de_fichero_from [] t
      else if (c =? CR)%N then
        match t with
        | c' :: t' =>
            if (c' =? LF)%N then (cur ++ [LF]) :: lineas_de_fichero_from [] t'
            else (cur ++ [LF]) :: lineas_de_fichero_from [] t
        | [] => (cur ++ [LF]) :: lineas_de_fichero_from [] t
        end
      else lineas_de_fichero_from (cur ++ [c]) t
  end.

Definition lineas_de_fichero (texto : str) : list str :=
  lineas_de_fichero_from [] texto.

(** [cargar_palabras_reservadas(ruta_fichero)] in the file system [fs]: the
    list returned and the lines printed. *)
Definition cargar_palabras_reservadas (fs : gmap str fichero)
    (ruta_fichero : str) : list str * list str :=
  match fs !! ruta_fichero with
  | Some (Legible texto) =>
      let palabras :=
        strip <$> filter (λ linea, strip linea ≠ []) (lineas_de_fichero texto) in
      (palabras, [])
  | None => ([], [py "Fichero no encontrado: " ++ ruta_fichero])
  | Some (Ilegible e) => ([], [py "Error al leer el fichero: " ++ e])
  end.

(** The text from offset 7 on as [es_separador] looks at it. *)
Definition contenido_de (linea : str) : str :=
  filter (λ c, c ≠ space) (strip (drop 7 linea)).

(** A character that does not end a line of a file. *)
Definition sin_fin (c : N) : Prop := c ≠ LF ∧ c ≠ CR.

(** A word as [cargar_palabras_reservadas] returns them: not empty, with no
    whitespace at either end and no line end inside. *)
Definition palabra_limpia (w : str) : Prop :=
  w ≠ [] ∧ strip w = w ∧ Forall sin_fin w.

(** * Properties *)

(** ** The string methods *)

Section StringMethods.
Implicit Types (s t : str) (c : N).

Lemma getitem_Some s i c : s !! i = Some c → getitem s i = Ok c.
Proof. unfold getitem. by intros ->. Qed.

Lemma LF_isspace : isspace LF = true.
Proof. reflexivity. Qed.

Lemma lstrip_suffix s : ∃ ws, s = ws ++ lstrip s ∧ Forall (λ c, isspace c = true) ws.
Proof.
  induction s as [|c s [ws [Hs Hws]]]; simpl.
  - by exists [].
  - destruct (isspace c) eqn:Hc.
    + exists (c :: ws). split; [by rewrite Hs at 1 | by constructor].
    + by exists [].
Qed.

(** [rstrip] removes a suffix of whitespace... *)
Lemma rstrip_prefix s : ∃ ws, s = rstrip s ++ ws ∧ Forall (λ c, isspace c = true) ws.
Proof.
  induction s as [|c s [ws [Hs Hws]]]; simpl.
  - by exists [].
  - destruct (rstrip s) as [|d r] eqn:Hr.
    + destruct (isspace c) eqn:Hc.
      * exists (c :: ws). simpl in Hs. subst s. split; [done | by constructor].
      * exists ws. simpl in *. by subst s.
    + exists ws. split; [|done]. simpl. by rewrite Hs at 1.
Qed.

(** ... and all of it: what is left does not end in whitespace. *)
Lemma rstrip_last s c : last (rstrip s) = Some c → isspace c = false.
Proof.
  induction s as [|d s IH]; simpl; [done|].
  destruct (rstrip s) as [|e r] eqn:Hr.
  - destruct (isspace d) eqn:Hd; simpl; [done|]. by intros [= <-].
  - intros H. apply IH. by destruct r.
Qed.

Lemma strip_last s c : last (strip s) = Some c → isspace c = false.
Proof. apply rstrip_last. Qed.

Lemma replace1_delete old s :
  replace1 old [] s = filter (λ c, c ≠ old) s.
Proof.
  unfold replace1. induction s as [|c s IH]; simpl; [done|].
  rewrite IH, filter_cons. destruct (N.eqb_spec c old) as [->|Hne].
  - by rewrite decide_False by (by intros []).
  - by rewrite decide_True.
Qed.

(** A list has exactly one distinct element when it is a non-empty run of
    one element. *)
Lemma size_list_to_set_1 (l : list N) :
  size (list_to_set l : gset N) = 1 ↔ ∃ c n, 0 < n ∧ l = replicate n c.
Proof.
  split.
  - intros H. apply size_1_elem_of in H as [c Hc].
    assert (Hall : ∀ x, x ∈ l → x = c).
    { intros x Hx. apply (elem_of_list_to_set (C:=gset N)) in Hx.
      rewrite Hc in Hx. by apply elem_of_singleton in Hx. }
    exists c, (length l). split.
    + destruct l; simpl; [|lia].
      assert (c ∈ (list_to_set [] : gset N)) by (rewrite Hc; set_solver).
      set_solver.
    + clear Hc. induction l as [|x l IH]; simpl; [done|].
      rewrite (Hall x) by set_solver. f_equal. apply IH.
      intros y Hy. apply Hall. set_solver.
  - intros (c & n & Hn & ->).
    assert ((list_to_set (replicate n c) : gset N) = {[c]}) as ->.
    { apply set_eq. intros x. rewrite elem_of_list_to_set, elem_of_replicate.
      rewrite elem_of_singleton. split; [by intros []|]. intros ->. split; [done|lia]. }
    apply size_singleton.
Qed.
End StringMethods.

(** The methods on small inputs. *)
Example strip_ejemplo :
  strip (py "  **a* " ++ [CR; LF]) = py "**a*"
  ∧ rstrip (py " x" ++ [TAB] ++ py " ") = py " x"
  ∧ replace1 space [] (py "= = =") = py "===".
Proof. by vm_compute. Qed.

Example splitlines_ejemplo :
  splitlines (py "a" ++ [CR; LF; LF] ++ py "b" ++ [CR]) = [py "a"; []; py "b"]
  ∧ splitlines [] = []
  ∧ splitlines [LF] = [[]]
  ∧ join [LF] [py "a"; []; py "b"] = py "a" ++ [LF; LF] ++ py "b".
Proof. by vm_compute. Qed.

(** ** Label lines *)

Lemma in_class_letra c :
  in_class [(65%N, 90%N); (97%N, 122%N)] c = true ↔ letra c.
Proof.
  unfold in_class, letra. simpl.
  rewrite orb_false_r, orb_true_iff, !andb_true_iff, !N.leb_le. tauto.
Qed.

(** C6.  [es_patron_etiqueta(s)] holds exactly when [s], trimmed, is the four
    characters [*], [*], one ASCII letter of either case, [*], with nothing
    before or after; so ["**Z*"] is a label line and ["**ZZ*"], ["*Z*"] and
    ["**1*"] are not. *)
Theorem es_patron_etiqueta_spec :
  (∀ s : str, es_patron_etiqueta s = true ↔
     ∃ c, letra c ∧ strip s = [star; star; c; star])
  ∧ es_patron_etiqueta (py "**Z*") = true
  ∧ es_patron_etiqueta (py "**ZZ*") = false
  ∧ es_patron_etiqueta (py "*Z*") = false
  ∧ es_patron_etiqueta (py "**1*") = false.
Proof.
  split; [|by vm_compute].
  intros s. unfold es_patron_etiqueta, re_match, patron_etiqueta.
  pose proof (strip_last s) as Hlast.
  destruct (strip s) as [|a [|b [|c [|d rest]]]]; cbn [match_here andb];
    rewrite ?andb_false_r; try (split; [done | by intros (? & _ & [=])]).
  unfold star. rewrite !andb_true_iff, in_class_letra, !N.eqb_eq.
  split.
  - intros (-> & -> & Hc & -> & Heol & _). exists c. split; [done|].
    destruct rest as [|e [|f rest]]; simpl in Heol; [done| |done].
    apply N.eqb_eq in Heol as ->.
    by specialize (Hlast LF eq_refl).
  - by intros (c' & Hc & [= -> -> -> -> ->]).
Qed.

(** ** Separator lines *)

Lemma es_separador_unfold (s : str) :
  let contenido := filter (λ c, c ≠ space) (strip (drop 7 s)) in
  es_separador s =
    Ok (bool_decide (10 ≤ length s ∧ s !! 6 = Some star ∧
                     5 ≤ length contenido ∧
                     size (list_to_set contenido : gset N) = 1)).
Proof.
  intros contenido. unfold es_separador. case_bool_decide as Hlen.
  { simpl. f_equal. symmetry. apply bool_decide_eq_false. lia. }
  destruct (lookup_lt_is_Some_2 s 6) as [c Hc]; [lia|].
  rewrite (getitem_Some _ _ _ Hc). simpl.
  case_bool_decide as Hstar; simpl.
  { f_equal. symmetry. apply bool_decide_eq_false.
    intros (_ & Heq & _). congruence. }
  subst c. rewrite replace1_delete. fold contenido. f_equal.
  apply eq_true_iff_eq.
  rewrite andb_true_iff, !bool_decide_eq_true. intuition lia.
Qed.

Lemma es_separador_total (s : str) : ∃ b, es_separador s = Ok b.
Proof. rewrite es_separador_unfold. eauto. Qed.

Lemma run_of_one_char (l : list N) :
  5 ≤ length l ∧ size (list_to_set l : gset N) = 1 ↔
  ∃ c n, 5 ≤ n ∧ l = replicate n c.
Proof.
  rewrite size_list_to_set_1. split.
  - intros (H5 & c & n & _ & ->). exists c, n.
    by rewrite length_replicate in H5.
  - intros (c & n & H5 & ->). rewrite length_replicate.
    split; [done|]. exists c, n. split; [lia|done].
Qed.

(** C2, as the source has it.  [es_separador(s)] never raises; it is false
    when [s] has fewer than 10 characters and when offset 6 does not hold
    [*]; otherwise it is true exactly when the text from offset 7 on, trimmed
    and with its space characters (U+0020) removed, other whitespace staying,
    is one character repeated at least 5 times.  ["      * AAAAAAAAAA"] is a
    separator and ["      * AAAA"] is not. *)
Theorem es_separador_spec :
  (∀ s : str,
     (∃ b, es_separador s = Ok b)
     ∧ (length s < 10 → es_separador s = Ok false)
     ∧ (s !! 6 ≠ Some star → es_separador s = Ok false)
     ∧ (es_separador s = Ok true ↔
          10 ≤ length s ∧ s !! 6 = Some star ∧
          ∃ c n, 5 ≤ n ∧
            filter (λ c, c ≠ space) (strip (drop 7 s)) = replicate n c))
  ∧ es_separador (py "      * AAAAAAAAAA") = Ok true
  ∧ es_separador (py "      * AAAA") = Ok false.
Proof.
  split; [|by vm_compute].
  intros s. rewrite es_separador_unfold. split_and!.
  - eauto.
  - intros Hlen. f_equal. apply bool_decide_eq_false. lia.
  - intros Hne. f_equal. apply bool_decide_eq_false. tauto.
  - rewrite <- run_of_one_char. split.
    + intros [= H]. by apply bool_decide_eq_true in H.
    + intros H. f_equal. by apply bool_decide_eq_true.
Qed.

(** C2, as the specification words it, fails: in ["      *AAA\tAAA"] the
    tab is interior whitespace, and removing it would leave six [A]s, yet
    the source keeps the tab and answers false. *)
Lemma es_separador_keeps_tabs :
  es_separador (py "      *AAA" ++ [TAB] ++ py "AAA") = Ok false
  ∧ is_separator_spec (py "      *AAA" ++ [TAB] ++ py "AAA") = true.
Proof. by vm_compute. Qed.

(** ** The loops over [lineas] *)

Lemma columna_7_asterisco_unfold (linea : str) :
  columna_7_asterisco linea = Ok (bool_decide (comentada linea)).
Proof.
  unfold columna_7_asterisco. case_bool_decide as Hlen.
  - destruct (lookup_lt_is_Some_2 linea 6 Hlen) as [c Hc].
    rewrite (getitem_Some _ _ _ Hc). simpl. f_equal.
    apply eq_true_iff_eq. rewrite !bool_decide_eq_true. unfold comentada.
    rewrite Hc. split; [by intros -> | by intros [_ [= ->]]].
  - simpl. f_equal. symmetry. apply bool_decide_eq_false.
    unfold comentada. tauto.
Qed.

Section Numeradas.
Context (P : str → Prop) `{∀ l, Decision (P l)}.

Lemma elem_of_numeradas i lineas n c :
  (n, c) ∈ numeradas P i lineas ↔
  ∃ linea, i < n ∧ lineas !! (n - S i) = Some linea ∧ P linea
           ∧ c = rstrip linea.
Proof.
  revert i. induction lineas as [|l r IH]; intros i; simpl.
  - split; [by intros ?%elem_of_nil | by intros (? & _ & [=] & _)].
  - rewrite elem_of_app, IH. split.
    + intros [Hhd | (linea & Hlt & Hlook & HP & ->)].
      * destruct (decide (P l)) as [HP|]; [|by apply elem_of_nil in Hhd].
        apply list_elem_of_singleton in Hhd as [= -> ->].
        exists l. replace (i + 1 - S i) with 0 by lia.
        split_and!; [lia|done..].
      * exists linea. replace (n - S i) with (S (n - S (S i))) by lia.
        split_and!; [lia|done..].
    + intros (linea & Hlt & Hlook & HP & ->).
      destruct (decide (n = S i)) as [->|Hne].
      * left. replace (S i - S i) with 0 in Hlook by lia.
        injection Hlook as ->. rewrite decide_True by done.
        replace (i + 1) with (S i) by lia. by apply list_elem_of_singleton.
      * right. exists linea.
        replace (n - S i) with (S (n - S (S i))) in Hlook by lia.
        split_and!; [lia|done..].
Qed.

Lemma numeradas_above i lineas :
  Forall (λ k, i < k) (numeradas P i lineas).*1.
Proof.
  revert i. induction lineas as [|l r IH]; intros i; simpl; [constructor|].
  rewrite fmap_app. apply Forall_app. split.
  - destruct (decide (P l)); simpl; repeat constructor. lia.
  - eapply Forall_impl; [apply IH|]. simpl. lia.
Qed.

(** The line numbers come out strictly increasing. *)
Lemma numeradas_sorted i lineas :
  StronglySorted lt (numeradas P i lineas).*1.
Proof.
  revert i. induction lineas as [|l r IH]; intros i; simpl; [constructor|].
  destruct (decide (P l)); simpl; [|apply IH].
  constructor; [apply IH|].
  eapply Forall_impl; [apply numeradas_above|]. simpl. lia.
Qed.

Lemma length_numeradas i lineas :
  length (numeradas P i lineas) = length (filter P lineas).
Proof.
  revert i. induction lineas as [|l r IH]; intros i; simpl; [done|].
  rewrite filter_cons, length_app, IH. by destruct (decide (P l)).
Qed.
End Numeradas.

Lemma bucle_lineas_comentadas_unfold i lineas comentadas :
  bucle_lineas_comentadas i lineas comentadas =
    Ok (comentadas ++
        numeradas (λ l, comentada l ∧ es_separador l = Ok false) i lineas).
Proof.
  revert i comentadas.
  induction lineas as [|l r IH]; intros i comentadas; simpl.
  { by rewrite app_nil_r. }
  rewrite columna_7_asterisco_unfold. simpl.
  destruct (es_separador_total l) as [s Hsep].
  destruct (decide (comentada l)) as [Hcom|Hcom].
  - rewrite bool_decide_eq_true_2, Hsep by done. simpl. rewrite IH.
    destruct s; simpl.
    + rewrite decide_False by (by intros [_ [=]]). done.
    + rewrite decide_True by done. by rewrite <- app_assoc.
  - rewrite bool_decide_eq_false_2 by done. simpl.
    rewrite IH, decide_False by tauto. done.
Qed.

Lemma bucle_num_lineas_unfold lineas total_lineas :
  bucle_num_lineas lineas total_lineas =
    Ok (total_lineas + length (filter comentada lineas)).
Proof.
  revert total_lineas.
  induction lineas as [|l r IH]; intros total_lineas; simpl.
  { f_equal. lia. }
  rewrite columna_7_asterisco_unfold, filter_cons. simpl. rewrite IH.
  case_bool_decide; [rewrite decide_True by done | rewrite decide_False by done];
    simpl; f_equal; lia.
Qed.

Lemma bucle_con_display_unfold toupper_full i lineas resultado :
  bucle_con_display toupper_full i lineas resultado =
    Ok (resultado ++
        numeradas (λ l, comentada l
                        ∧ contains DISPLAY (upper toupper_full l) = true)
                  i lineas).
Proof.
  revert i resultado.
  induction lineas as [|l r IH]; intros i resultado; simpl.
  { by rewrite app_nil_r. }
  rewrite columna_7_asterisco_unfold. simpl. rewrite IH.
  case_bool_decide as Hcom; simpl.
  - destruct (contains DISPLAY (upper toupper_full l)) eqn:Hc.
    + rewrite decide_True by done. by rewrite <- app_assoc.
    + rewrite decide_False by (by intros [_ [=]]). done.
  - rewrite decide_False by tauto. done.
Qed.

Lemma rstrip_recortada (linea : str) : recortada linea (rstrip linea).
Proof.
  destruct (rstrip_prefix linea) as (ws & Heq & Hws).
  exists ws. split_and!; [done..|]. apply rstrip_last.
Qed.

(** ** [obtener_lineas_comentadas] and [obtener_num_lineas_comentadas] *)

(** C7.  [obtener_lineas_comentadas] returns the pair [(n, c)] exactly when
    line number [n], counting from 1, is longer than 6 characters, holds [*]
    at offset 6 and is not a separator, [c] being that line without its
    trailing whitespace; the pairs come in ascending order of line number. *)
Theorem obtener_lineas_comentadas_spec (lineas : list str) :
  ∃ r, obtener_lineas_comentadas lineas = Ok r
     ∧ (∀ n c, (n, c) ∈ r ↔
          ∃ linea, 1 ≤ n ∧ lineas !! (n - 1) = Some linea
                   ∧ 6 < length linea ∧ linea !! 6 = Some star
                   ∧ es_separador linea = Ok false
                   ∧ c = rstrip linea)
     ∧ StronglySorted lt r.*1.
Proof.
  unfold obtener_lineas_comentadas.
  rewrite bucle_lineas_comentadas_unfold. simpl.
  eexists. split; [done|]. split; [|apply numeradas_sorted].
  intros n c. rewrite elem_of_numeradas. unfold comentada.
  split; intros (linea & ?); exists linea; intuition.
Qed.

Example obtener_lineas_comentadas_ejemplo :
  let lineas := [py "      * hola"; py "       MOVE A TO B";
                 py "      *-----------"; py "      *"] in
  obtener_lineas_comentadas lineas
  = Ok [(1, py "      * hola"); (4, py "      *")]
  ∧ obtener_num_lineas_comentadas lineas = Ok 3.
Proof. by vm_compute. Qed.

(** C4.  The count is never below the number of collected lines: the count
    is the number of comment lines, separators included, and the collected
    lines are the comment lines that are not separators. *)
Theorem num_lineas_ge_lineas_comentadas (lineas : list str) :
  ∃ n r, obtener_num_lineas_comentadas lineas = Ok n
       ∧ obtener_lineas_comentadas lineas = Ok r
       ∧ length r ≤ n
       ∧ n = length (filter comentada lineas)
       ∧ length r =
           length (filter (λ l, comentada l ∧ es_separador l = Ok false)
                          lineas).
Proof.
  unfold obtener_num_lineas_comentadas, obtener_lineas_comentadas.
  rewrite bucle_num_lineas_unfold, bucle_lineas_comentadas_unfold. simpl.
  do 2 eexists. split_and!; try done.
  - rewrite length_numeradas.
    induction lineas as [|l r IH]; simpl; [done|].
    rewrite !filter_cons.
    destruct (decide (comentada l ∧ _)) as [[Hc _]|_].
    + rewrite decide_True by done. simpl. lia.
    + destruct (decide (comentada l)); simpl; lia.
  - apply length_numeradas.
Qed.

(** [recortada] determines the content: it is [rstrip] and nothing else. *)
Lemma rstrip_app_spaces (c ws : str) :
  Forall (λ x, isspace x = true) ws → rstrip (c ++ ws) = rstrip c.
Proof.
  intros Hws. induction c as [|x c IH]; simpl.
  - induction Hws as [|w ws Hw _ IHws]; simpl; [done|]. by rewrite IHws, Hw.
  - by rewrite IH.
Qed.

Lemma rstrip_id (c : str) :
  (∀ x, last c = Some x → isspace x = false) → rstrip c = c.
Proof.
  induction c as [|x c IH]; simpl; [done|]. intros Hlast.
  destruct c as [|y c].
  - simpl. by rewrite (Hlast x eq_refl).
  - rewrite IH by (intros z Hz; by apply Hlast). done.
Qed.

Lemma recortada_rstrip (linea c : str) : recortada linea c ↔ c = rstrip linea.
Proof.
  split; [|intros ->; apply rstrip_recortada].
  intros (ws & -> & Hws & Hlast).
  by rewrite rstrip_app_spaces, rstrip_id.
Qed.

(** C9.  No operation raises, whatever the strings: each returns a value,
    and a line too short to hold offset 6 (the empty line among them) is
    answered with false, left out and not counted. *)
Theorem operations_never_raise (toupper_full : N → str) (s : str)
    (lineas : list str) :
  (∃ b, es_separador s = Ok b)
  ∧ (∃ r, obtener_lineas_comentadas lineas = Ok r)
  ∧ (∃ n, obtener_num_lineas_comentadas lineas = Ok n)
  ∧ (∃ r, obtener_lineas_comentadas_con_display toupper_full lineas = Ok r)
  ∧ (length s < 7 →
       es_separador s = Ok false
       ∧ obtener_lineas_comentadas [s] = Ok []
       ∧ obtener_num_lineas_comentadas [s] = Ok 0
       ∧ obtener_lineas_comentadas_con_display toupper_full [s] = Ok [])
  ∧ es_separador [] = Ok false.
Proof.
  unfold obtener_lineas_comentadas, obtener_num_lineas_comentadas,
    obtener_lineas_comentadas_con_display.
  split_and!.
  - apply es_separador_total.
  - rewrite bucle_lineas_comentadas_unfold. eauto.
  - rewrite bucle_num_lineas_unfold. eauto.
  - rewrite bucle_con_display_unfold. eauto.
  - intros Hlen.
    assert (¬ comentada s) as Hno by (unfold comentada; lia).
    rewrite bucle_lineas_comentadas_unfold, bucle_num_lineas_unfold,
      bucle_con_display_unfold, es_separador_unfold.
    simpl. rewrite filter_cons, !decide_False by tauto.
    rewrite bool_decide_eq_false_2 by lia. done.
  - reflexivity.
Qed.

(** The guards at work on a line of six blanks, one short of offset 6. *)
Lemma operations_never_raise_short :
  es_separador (py "      ") = Ok false
  ∧ obtener_lineas_comentadas [py "      "] = Ok []
  ∧ obtener_num_lineas_comentadas [py "      "] = Ok 0
  ∧ obtener_lineas_comentadas_con_display toupper_ascii_only [py "      "]
    = Ok [].
Proof.
  apply (operations_never_raise toupper_ascii_only (py "      ") []).
  simpl. lia.
Defined.

(** ** [obtener_lineas_comentadas_con_display] *)

Lemma startswith_spec (hay needle : str) :
  startswith hay needle = true ↔ ∃ post, hay = needle ++ post.
Proof.
  revert hay. induction needle as [|n needle IH]; intros hay.
  - destruct hay; simpl; (split; [|done]); intros _; eauto.
  - destruct hay as [|h hay]; simpl.
    + split; [done | by intros (? & [=])].
    + rewrite andb_true_iff, N.eqb_eq, IH. split.
      * intros [-> [post ->]]. by exists post.
      * intros (post & [= -> ->]). split; [done|]. by exists post.
Qed.

Lemma contains_spec (needle hay : str) :
  contains needle hay = true ↔ ocurre_en needle hay.
Proof.
  unfold ocurre_en. induction hay as [|h hay IH]; cbn [contains].
  - rewrite orb_false_r, startswith_spec. split.
    + intros [post Hpost]. by exists [], post.
    + intros (pre & post & Heq). symmetry in Heq.
      apply app_eq_nil in Heq as [-> Heq]. by exists post.
  - rewrite orb_true_iff, startswith_spec, IH. split.
    + intros [[post Hpost] | (pre & post & ->)].
      * by exists [], post.
      * by exists (h :: pre), post.
    + intros ([|p pre] & post & Heq); simpl in Heq.
      * left. by exists post.
      * right. injection Heq as -> ->. by exists pre, post.
Qed.

Lemma ascii_toupper_es_ascii (c : N) : es_ascii (ascii_toupper c) → es_ascii c.
Proof.
  unfold es_ascii, ascii_toupper.
  destruct (_ && _) eqn:Hc; [|done].
  apply andb_true_iff in Hc as [_ Hc%N.leb_le]. lia.
Qed.

Section Upper.
Variable toupper_full : N → str.
Hypothesis toupper_ascii : ∀ c, es_ascii c → toupper_full c = [ascii_toupper c].

Lemma upper_app (a b : str) :
  upper toupper_full (a ++ b) = upper toupper_full a ++ upper toupper_full b.
Proof. apply flat_map_app. Qed.

Lemma upper_ascii (s : str) :
  Forall es_ascii s → upper toupper_full s = ascii_toupper <$> s.
Proof.
  induction 1 as [|c s Hc _ IH]; [done|].
  cbn [upper flat_map]. fold (upper toupper_full s).
  by rewrite IH, toupper_ascii.
Qed.

(** A word spelled like the token, in whatever letter case, is in ASCII and
    its uppercase is the token. *)
Lemma upper_spelled (w : str) :
  ascii_toupper <$> w = DISPLAY → upper toupper_full w = DISPLAY.
Proof.
  intros Hw. rewrite upper_ascii; [done|].
  assert (Forall es_ascii (ascii_toupper <$> w)) as Hall.
  { rewrite Hw. unfold es_ascii. repeat constructor. }
  rewrite Forall_fmap in Hall. eapply Forall_impl; [exact Hall|].
  intros c. apply ascii_toupper_es_ascii.
Qed.

(** C8.  [obtener_lineas_comentadas_con_display] returns the pair [(n, c)]
    exactly when line [n], counting from 1, is longer than 6 characters,
    holds [*] at offset 6 and contains the token [DISPLAY] once the whole
    line is put in upper case, [c] being the line without its trailing
    whitespace; the pairs come in input order.  The test ignores letter
    case: a line that holds the token spelled [display], [DISPLAY] or
    [Display] anywhere passes it, and a line of ASCII characters passes it
    only when it holds the token in some spelling. *)
Theorem obtener_lineas_comentadas_con_display_spec (lineas : list str) :
  ∃ r, obtener_lineas_comentadas_con_display toupper_full lineas = Ok r
     ∧ (∀ n c, (n, c) ∈ r ↔
          ∃ linea, 1 ≤ n ∧ lineas !! (n - 1) = Some linea
                   ∧ 6 < length linea ∧ linea !! 6 = Some star
                   ∧ ocurre_en DISPLAY (upper toupper_full linea)
                   ∧ c = rstrip linea)
     ∧ StronglySorted lt r.*1
     ∧ (∀ linea w, ocurre_en w linea → ascii_toupper <$> w = DISPLAY →
          ocurre_en DISPLAY (upper toupper_full linea))
     ∧ (∀ linea, Forall es_ascii linea →
          ocurre_en DISPLAY (upper toupper_full linea) →
          ∃ w, ocurre_en w linea ∧ ascii_toupper <$> w = DISPLAY)
     ∧ Forall (λ w, ascii_toupper <$> w = DISPLAY)
              [py "display"; py "DISPLAY"; py "Display"].
Proof.
  unfold obtener_lineas_comentadas_con_display.
  rewrite bucle_con_display_unfold. simpl.
  eexists. split; [done|]. split_and!.
  - intros n c. rewrite elem_of_numeradas. unfold comentada.
    setoid_rewrite contains_spec.
    split; intros (linea & ?); exists linea; intuition.
  - apply numeradas_sorted.
  - intros linea w (pre & post & ->) Hw.
    exists (upper toupper_full pre), (upper toupper_full post).
    by rewrite !upper_app, (upper_spelled w).
  - intros linea Hascii (pre & post & Heq).
    rewrite upper_ascii in Heq by done.
    apply fmap_app_inv in Heq as (pre' & rest & -> & Heq & ->).
    symmetry in Heq.
    apply fmap_app_inv in Heq as (w & post' & Hw & -> & ->).
    exists w. split; [by exists pre', post' | done].
  - by repeat constructor.
Qed.
End Upper.

(** The ASCII table is an instance, and three comment lines with the three
    spellings are all returned. *)
Lemma obtener_lineas_comentadas_con_display_spellings :
  ∃ r, obtener_lineas_comentadas_con_display toupper_ascii_only
         [py "      * display a"; py "      * DISPLAY b";
          py "      * Display c"; py "       display d"] = Ok r
     ∧ r.*1 = [1; 2; 3].
Proof.
  destruct (obtener_lineas_comentadas_con_display_spec toupper_ascii_only
              (λ c _, eq_refl)
              [py "      * display a"; py "      * DISPLAY b";
               py "      * Display c"; py "       display d"])
    as (r & Hr & _).
  exists r. split; [exact Hr|].
  vm_compute in Hr. by injection Hr as <-.
Defined.

(** ** Content of the collected pairs *)

(** C3, as the source has it.  Each pair that either collecting operation
    returns holds its line without its trailing whitespace: line
    terminators, and blanks and tabs before them as well. *)
Theorem collected_content_recortada (toupper_full : N → str)
    (lineas : list str) :
  ∃ r1 r2,
    obtener_lineas_comentadas lineas = Ok r1
    ∧ obtener_lineas_comentadas_con_display toupper_full lineas = Ok r2
    ∧ Forall (λ p, ∃ linea, 1 ≤ p.1 ∧ lineas !! (p.1 - 1) = Some linea
                            ∧ recortada linea p.2) (r1 ++ r2).
Proof.
  unfold obtener_lineas_comentadas, obtener_lineas_comentadas_con_display.
  rewrite bucle_lineas_comentadas_unfold, bucle_con_display_unfold. simpl.
  do 2 eexists. split_and!; [done..|].
  apply Forall_app. split; apply Forall_forall; intros [n c];
    rewrite elem_of_numeradas; intros (linea & Hn & Hlook & _ & ->);
    exists linea; simpl; (split_and!; [lia|done|apply rstrip_recortada]).
Qed.

(** C3, as the specification words it, fails: the two blanks that end
    ["      * hola  "] are not line terminators, yet they are gone from the
    collected content. *)
Lemma collected_content_loses_blanks :
  obtener_lineas_comentadas [py "      * hola  "] = Ok [(1, py "      * hola")]
  ∧ obtener_lineas_comentadas_con_display toupper_ascii_only
      [py "      * display  "] = Ok [(1, py "      * display")]
  ∧ strip_line_terminators (py "      * hola  ") = py "      * hola  "
  ∧ strip_line_terminators (py "      * display  ") = py "      * display  ".
Proof. by vm_compute. Qed.

(** ** The block extractor *)

Lemma recorrer_app l1 l2 st :
  recorrer (l1 ++ l2) st = recorrer l2 (recorrer l1 st).
Proof. apply foldl_app. Qed.

Lemma recorrer_cons l lineas st :
  recorrer (l :: lineas) st = recorrer lineas (paso st l).
Proof. reflexivity. Qed.

(** Outside a block, lines that are not labels change nothing. *)
Lemma recorrer_sin_etiquetas_fuera lineas bs buf :
  sin_etiquetas lineas →
  recorrer lineas (Estado bs buf false) = Estado bs buf false.
Proof.
  induction 1 as [|l lineas Hl _ IH]; [done|].
  rewrite recorrer_cons. unfold paso. rewrite Hl. simpl. apply IH.
Qed.

(** Inside a block, they pile up in the buffer. *)
Lemma recorrer_sin_etiquetas_dentro lineas bs buf :
  sin_etiquetas lineas →
  recorrer lineas (Estado bs buf true) = Estado bs (buf ++ lineas) true.
Proof.
  intros H. revert buf. induction H as [|l lineas Hl _ IH]; intros buf.
  { by rewrite app_nil_r. }
  rewrite recorrer_cons. unfold paso. rewrite Hl. simpl.
  by rewrite IH, <- app_assoc.
Qed.

(** Every sequence of lines either has no label line or splits at its first
    one. *)
Lemma primera_etiqueta lineas :
  sin_etiquetas lineas ∨
  ∃ pre etiqueta resto,
    lineas = pre ++ etiqueta :: resto ∧ sin_etiquetas pre
    ∧ es_patron_etiqueta etiqueta = true.
Proof.
  induction lineas as [|l lineas IH]; [left; constructor|].
  destruct (es_patron_etiqueta l) eqn:Hl.
  { right. exists [], l, lineas. split_and!; [done|constructor|done]. }
  destruct IH as [Hno | (pre & e & resto & -> & Hpre & He)].
  - left. by constructor.
  - right. exists (l :: pre), e, resto. split_and!; [done| |done].
    by constructor.
Qed.

(** The whole run, from a state outside any block: the blocks added are those
    of [emparejado]; the run ends outside a block with an empty buffer, or
    inside one, the buffer holding the lines from the unmatched opening label
    on, and then the blocks are those of the lines before that label. *)
Lemma recorrer_fuera lineas bs :
  ∃ out,
    emparejado lineas out
    ∧ (recorrer lineas (Estado bs [] false) = Estado (bs ++ out) [] false
       ∨ ∃ pre apertura resto,
           lineas = pre ++ apertura :: resto
           ∧ es_patron_etiqueta apertura = true
           ∧ sin_etiquetas resto
           ∧ recorrer pre (Estado bs [] false) = Estado (bs ++ out) [] false
           ∧ recorrer lineas (Estado bs [] false)
             = Estado (bs ++ out) (apertura :: resto) true).
Proof.
  remember (length lineas) as n eqn:Hn. revert lineas bs Hn.
  induction n as [n IH] using lt_wf_ind. intros lineas bs ->.
  destruct (primera_etiqueta lineas)
    as [Hno | (pre & ap & resto1 & -> & Hpre & Hap)].
  { exists []. split; [by constructor|]. left.
    by rewrite app_nil_r, recorrer_sin_etiquetas_fuera. }
  assert (recorrer (pre ++ [ap]) (Estado bs [] false) = Estado bs [ap] true)
    as Habre.
  { rewrite recorrer_app, recorrer_sin_etiquetas_fuera by done.
    simpl. unfold paso. by rewrite Hap. }
  destruct (primera_etiqueta resto1)
    as [Hno1 | (medio & ci & resto & -> & Hmedio & Hci)].
  { exists []. split; [by constructor|]. right.
    exists pre, ap, resto1. rewrite app_nil_r. split_and!; try done.
    - by apply recorrer_sin_etiquetas_fuera.
    - rewrite (cons_middle ap), app_assoc, recorrer_app, Habre.
      by rewrite recorrer_sin_etiquetas_dentro. }
  set (b := join [LF] (ap :: medio ++ [ci])).
  assert (recorrer (pre ++ ap :: medio ++ [ci]) (Estado bs [] false)
          = Estado (bs ++ [b]) [] false) as Hcierra.
  { rewrite (cons_middle ap), app_assoc, recorrer_app, Habre.
    rewrite recorrer_app, recorrer_sin_etiquetas_dentro by done.
    rewrite recorrer_cons. unfold paso. rewrite Hci. reflexivity. }
  destruct (IH (length resto)) with (lineas := resto) (bs := bs ++ [b])
    as (out & Hemp & Hfin); [|done|].
  { rewrite !length_app. simpl. rewrite length_app. simpl. lia. }
  exists (b :: out). split; [by constructor|].
  assert (∀ l, recorrer (pre ++ ap :: medio ++ ci :: l) (Estado bs [] false)
               = recorrer l (Estado (bs ++ [b]) [] false)) as Hsalta.
  { intros l.
    replace (pre ++ ap :: medio ++ ci :: l)
      with ((pre ++ ap :: medio ++ [ci]) ++ l)
      by (by rewrite <- !app_assoc; simpl; rewrite <- app_assoc).
    by rewrite recorrer_app, Hcierra. }
  rewrite (cons_middle b), (app_assoc bs).
  destruct Hfin as [Hfin | (pre' & ap' & resto' & -> & Hap' & Hresto' & Hpre' & Hfin)].
  - left. by rewrite Hsalta.
  - right. exists (pre ++ ap :: medio ++ ci :: pre'), ap', resto'.
    split_and!; try done.
    + by rewrite <- !app_assoc; simpl; rewrite <- app_assoc.
    + by rewrite Hsalta.
    + by rewrite Hsalta.
Qed.

(** *** Lines of a text *)

(** The lines that [splitlines] returns hold no line boundary. *)
Lemma splitlines_from_sin_saltos s cur :
  Forall sin_salto cur → Forall (Forall sin_salto) (splitlines_from cur s).
Proof.
  revert cur. induction s as [|c t IH]; intros cur Hcur; simpl.
  { destruct cur; repeat constructor; by inversion Hcur. }
  destruct (is_linebreak c) eqn:Hc.
  - assert (Forall (Forall sin_salto) (cur :: splitlines_from [] t)) as Hdef.
    { constructor; [done|]. apply IH. constructor. }
    destruct (c =? CR)%N; [|done].
    destruct t as [|c' t']; [done|].
    destruct (N.eqb_spec c' LF) as [->|]; [|done].
    constructor; [done|].
    specialize (IH [] (Forall_nil_2 _)). simpl in IH. by inversion IH.
  - apply IH. apply Forall_app. split; [done|]. by repeat constructor.
Qed.

Lemma splitlines_sin_saltos texto :
  Forall (Forall sin_salto) (splitlines texto).
Proof. apply splitlines_from_sin_saltos. constructor. Qed.

Lemma splitlines_from_line x cur s :
  Forall sin_salto x →
  splitlines_from cur (x ++ s) = splitlines_from (cur ++ x) s.
Proof.
  intros Hx. revert cur. induction Hx as [|c x Hc _ IH]; intros cur; simpl.
  - by rewrite app_nil_r.
  - rewrite Hc, IH. by rewrite <- app_assoc.
Qed.

(** Joining lines with newlines and splitting again gives the lines back,
    when the last one is not empty. *)
Lemma splitlines_join ls :
  Forall (Forall sin_salto) ls →
  (∀ x, last ls = Some x → x ≠ []) →
  splitlines (join [LF] ls) = ls.
Proof.
  unfold splitlines. induction 1 as [|x ls Hx Hls IH]; intros Hlast; [done|].
  destruct ls as [|y ls].
  - simpl. rewrite <- (app_nil_r x) at 1. rewrite splitlines_from_line by done.
    simpl. specialize (Hlast x eq_refl). by destruct x.
  - change (join [LF] (x :: y :: ls)) with (x ++ LF :: join [LF] (y :: ls)).
    rewrite splitlines_from_line by done. cbn [splitlines_from app].
    change (is_linebreak LF) with true. change (LF =? CR)%N with false.
    cbn iota. f_equal. apply IH. intros z Hz. by apply Hlast.
Qed.

(** Lines that hold no newline can be read back from their join. *)
Lemma app_LF_inj (x y r r' : str) :
  Forall sin_salto x → Forall sin_salto y →
  x ++ LF :: r = y ++ LF :: r' → x = y ∧ r = r'.
Proof.
  intros Hx. revert y. induction Hx as [|a x Ha _ IH]; intros y Hy Heq.
  - destruct Hy as [|c y Hc _]; simpl in Heq; [by injection Heq|].
    injection Heq as <- _. done.
  - destruct Hy as [|c y Hc Hy]; simpl in Heq.
    + injection Heq as -> _. done.
    + injection Heq as -> Heq. destruct (IH y Hy Heq) as [-> ->]. done.
Qed.

Lemma sin_salto_no_LF (x y r : str) :
  Forall sin_salto x → x ≠ y ++ LF :: r.
Proof.
  intros Hx ->. apply Forall_app in Hx as [_ Hx]. by inversion Hx.
Qed.

Lemma join_LF_inj xs ys :
  xs ≠ [] → ys ≠ [] →
  Forall (Forall sin_salto) xs → Forall (Forall sin_salto) ys →
  join [LF] xs = join [LF] ys → xs = ys.
Proof.
  intros Hxs Hys Hx. revert ys Hys.
  induction Hx as [|x xs Hx Hxs' IH]; [done|]. intros ys Hys Hy Heq.
  destruct Hy as [|y ys Hy Hys']; [done|].
  destruct xs as [|x2 xs], ys as [|y2 ys].
  - simpl in Heq. by subst.
  - change (x = y ++ LF :: join [LF] (y2 :: ys)) in Heq.
    by apply sin_salto_no_LF in Heq.
  - change (x ++ LF :: join [LF] (x2 :: xs) = y) in Heq.
    symmetry in Heq. by apply sin_salto_no_LF in Heq.
  - change (x ++ LF :: join [LF] (x2 :: xs)
            = y ++ LF :: join [LF] (y2 :: ys)) in Heq.
    apply app_LF_inj in Heq as [-> Heq]; [|done..].
    f_equal. by apply IH.
Qed.

(** *** What [emparejado] says about the blocks *)

Lemma sin_etiquetas_filter lineas :
  sin_etiquetas lineas →
  filter (λ l, es_patron_etiqueta l = true) lineas = [].
Proof.
  induction 1 as [|l lineas Hl _ IH]; [done|].
  rewrite filter_cons, decide_False by congruence. done.
Qed.

Lemma sin_etiquetas_elem lineas l :
  sin_etiquetas lineas → l ∈ lineas → es_patron_etiqueta l = true → False.
Proof.
  intros Hno Hin Hl. unfold sin_etiquetas in Hno.
  rewrite Forall_forall in Hno. specialize (Hno l Hin). congruence.
Qed.

(** The first label line of a sequence is where it is and nowhere else. *)
Lemma primera_etiqueta_unica pre e r pre' e' r' :
  sin_etiquetas pre → es_patron_etiqueta e = true →
  sin_etiquetas pre' → es_patron_etiqueta e' = true →
  pre ++ e :: r = pre' ++ e' :: r' →
  pre = pre' ∧ e = e' ∧ r = r'.
Proof.
  intros Hpre He. revert pre'.
  induction Hpre as [|l pre Hl _ IH]; intros pre' Hpre' He' Heq.
  - destruct Hpre' as [|l' pre' Hl' _]; simpl in Heq.
    + by injection Heq as -> ->.
    + injection Heq as -> _. congruence.
  - destruct Hpre' as [|l' pre' Hl' Hpre']; simpl in Heq.
    + injection Heq as -> _. congruence.
    + injection Heq as -> Heq.
      destruct (IH pre' Hpre' He' Heq) as (-> & -> & ->). done.
Qed.

(** The blocks of a sequence of lines are determined. *)
Lemma emparejado_unico lineas bs bs' :
  emparejado lineas bs → emparejado lineas bs' → bs = bs'.
Proof.
  intros H. revert bs'.
  induction H as [lineas Hno | pre ap resto Hpre Hap Hresto
                 | pre ap medio ci resto bs Hpre Hap Hmedio Hci Hrec IH];
    intros bs' H'.
  - inversion H' as [| |pre' ap' medio' ci' resto' bs0 ? Hap' ? ? ? Heq];
      [done..|]. subst. exfalso.
    eapply (sin_etiquetas_elem _ ap'); [exact Hno| |done].
    apply elem_of_app. right. apply list_elem_of_here.
  - inversion H' as [| |pre' ap' medio' ci' resto' bs0 Hpre' Hap' ? Hci' ? Heq];
      [done..|]. subst. exfalso.
    apply primera_etiqueta_unica in Heq as (_ & _ & <-); [|done..].
    eapply (sin_etiquetas_elem _ ci'); [exact Hresto| |done].
    apply elem_of_app. right. apply list_elem_of_here.
  - inversion H' as [? Hno|pre' ap' resto' Hpre' Hap' Hresto' Heq
                    |pre' ap' medio' ci' resto' bs0 Hpre' Hap' Hmedio' Hci' Hrec' Heq];
      subst.
    + exfalso. eapply (sin_etiquetas_elem _ ap); [exact Hno| |done].
      apply elem_of_app. right. apply list_elem_of_here.
    + exfalso.
      apply primera_etiqueta_unica in Heq as (_ & _ & ->); [|done..].
      eapply (sin_etiquetas_elem _ ci); [exact Hresto'| |done].
      apply elem_of_app. right. apply list_elem_of_here.
    + apply primera_etiqueta_unica in Heq as (-> & -> & Heq); [|done..].
      apply primera_etiqueta_unica in Heq as (-> & -> & ->); [|done..].
      f_equal. by apply IH.
Qed.

(** Each block is the join of an opening label line, lines that are not
    labels, and a closing label line, all of them lines of the input. *)
Lemma emparejado_forma lineas bs :
  emparejado lineas bs →
  Forall (λ b, ∃ apertura medio cierre,
            b = join [LF] (apertura :: medio ++ [cierre])
            ∧ es_patron_etiqueta apertura = true
            ∧ sin_etiquetas medio
            ∧ es_patron_etiqueta cierre = true
            ∧ (apertura :: medio ++ [cierre]) ⊆ lineas) bs.
Proof.
  induction 1 as [| |pre ap medio ci resto bs Hpre Hap Hmedio Hci _ IH];
    [constructor..|].
  constructor.
  - exists ap, medio, ci. split_and!; [done..|].
    intros l Hl. apply elem_of_app. right.
    rewrite (cons_middle ci), app_assoc. apply elem_of_cons in Hl as [->|Hl].
    + apply list_elem_of_here.
    + apply list_elem_of_further, elem_of_app. by left.
  - eapply Forall_impl; [exact IH|]. simpl.
    intros b (ap' & medio' & ci' & ? & ? & ? & ? & Hsub).
    exists ap', medio', ci'. split_and!; [done..|].
    intros l Hl. apply elem_of_app. right. apply list_elem_of_further.
    apply elem_of_app. right. apply list_elem_of_further. by apply Hsub.
Qed.

(** There is one block for every two label lines. *)
Lemma emparejado_length lineas bs :
  emparejado lineas bs →
  length bs = length (filter (λ l, es_patron_etiqueta l = true) lineas) / 2.
Proof.
  induction 1 as [lineas Hno | pre ap resto Hpre Hap Hresto
                 | pre ap medio ci resto bs Hpre Hap Hmedio Hci _ IH].
  - by rewrite sin_etiquetas_filter.
  - rewrite filter_app, filter_cons, decide_True by done.
    by rewrite !sin_etiquetas_filter.
  - rewrite filter_app, filter_cons, decide_True by done.
    rewrite filter_app, filter_cons, decide_True by done.
    rewrite !sin_etiquetas_filter by done. cbn [app length]. rewrite IH.
    set (k := length (filter _ resto)).
    change (S (S k)) with (1 * 2 + k). by rewrite Nat.div_add_l.
Qed.

Lemma ext_bloq_emparejado texto :
  emparejado (splitlines texto) (ext_bloq_comentados_patron_etiqueta texto).
Proof.
  unfold ext_bloq_comentados_patron_etiqueta, estado_inicial.
  destruct (recorrer_fuera (splitlines texto) []) as (out & Hemp & Hfin).
  destruct Hfin as [-> | (? & ? & ? & _ & _ & _ & _ & ->)]; done.
Qed.

Lemma es_patron_etiqueta_no_vacia l : es_patron_etiqueta l = true → l ≠ [].
Proof. by intros H ->. Qed.

(** C5.  The blocks returned are those of the paired label lines of the
    text, in order: each is the join by newlines of the opening label line,
    the lines up to the next label line, and that label line; nothing else
    qualifies.  A text with no label line gives no block, and the lines
    ["**A*"], ["hello"], ["**B*"] give the one block ["**A*\nhello\n**B*"]. *)
Theorem ext_bloq_comentados_patron_etiqueta_spec :
  (∀ texto : str,
     emparejado (splitlines texto) (ext_bloq_comentados_patron_etiqueta texto)
     ∧ (∀ bs, emparejado (splitlines texto) bs →
              bs = ext_bloq_comentados_patron_etiqueta texto)
     ∧ (sin_etiquetas (splitlines texto) →
        ext_bloq_comentados_patron_etiqueta texto = []))
  ∧ splitlines (py "**A*" ++ [LF] ++ py "hello" ++ [LF] ++ py "**B*")
    = [py "**A*"; py "hello"; py "**B*"]
  ∧ ext_bloq_comentados_patron_etiqueta
      (py "**A*" ++ [LF] ++ py "hello" ++ [LF] ++ py "**B*")
    = [py "**A*" ++ [LF] ++ py "hello" ++ [LF] ++ py "**B*"].
Proof.
  split; [|by vm_compute].
  intros texto. pose proof (ext_bloq_emparejado texto) as Hemp.
  split_and!; [done| |].
  - intros bs Hbs. by apply (emparejado_unico (splitlines texto)).
  - intros Hno. apply (emparejado_unico (splitlines texto)); [done|].
    by constructor.
Qed.

(** C1.  When the lines run out inside a block, the buffer holds the
    unmatched opening label line and what follows it, and none of that is
    returned: the result is the blocks of the lines before that label line,
    and the buffer joined is not among them.  The lines ["**A*"], ["x"] give
    no block. *)
Theorem ext_bloq_discards_unterminated :
  (∀ texto : str,
     let st := recorrer (splitlines texto) estado_inicial in
     dentro_bloque st = true →
     ∃ pre apertura resto,
       splitlines texto = pre ++ apertura :: resto
       ∧ es_patron_etiqueta apertura = true
       ∧ sin_etiquetas resto
       ∧ bloque_actual st = apertura :: resto
       ∧ dentro_bloque (recorrer pre estado_inicial) = false
       ∧ ext_bloq_comentados_patron_etiqueta texto
         = bloques (recorrer pre estado_inicial)
       ∧ join [LF] (bloque_actual st)
         ∉ ext_bloq_comentados_patron_etiqueta texto)
  ∧ splitlines (py "**A*" ++ [LF] ++ py "x") = [py "**A*"; py "x"]
  ∧ ext_bloq_comentados_patron_etiqueta (py "**A*" ++ [LF] ++ py "x") = [].
Proof.
  split; [|by vm_compute].
  intros texto st. unfold ext_bloq_comentados_patron_etiqueta. fold st.
  pose proof (splitlines_sin_saltos texto) as Hsaltos.
  destruct (recorrer_fuera (splitlines texto) []) as (out & Hemp & Hfin).
  fold estado_inicial in Hfin. fold st in Hfin.
  destruct Hfin as [Hst | (pre & ap & resto & Heq & Hap & Hresto & Hpre & Hst)];
    rewrite Hst; cbn [dentro_bloque bloque_actual bloques app]; [done|].
  intros _.
  exists pre, ap, resto. rewrite Hpre. split_and!; try done.
  intros Hin. apply emparejado_forma in Hemp.
  rewrite Forall_forall in Hemp.
  destruct (Hemp _ Hin) as (ap' & medio' & ci' & Hjoin & _ & _ & Hci' & Hsub).
  rewrite Forall_forall in Hsaltos.
  apply join_LF_inj in Hjoin; [|done|done| |].
  - injection Hjoin as -> ->.
    eapply (sin_etiquetas_elem _ ci'); [exact Hresto| |done].
    apply elem_of_app. right. apply list_elem_of_here.
  - apply Forall_forall. intros l Hl. apply Hsaltos. rewrite Heq.
    apply elem_of_app. by right.
  - apply Forall_forall. intros l Hl. by apply Hsaltos, Hsub.
Qed.

(** The text ["**A*\nx"] ends inside a block. *)
Lemma ext_bloq_discards_unterminated_example :
  ∃ pre apertura resto,
    splitlines (py "**A*" ++ [LF] ++ py "x") = pre ++ apertura :: resto
    ∧ es_patron_etiqueta apertura = true
    ∧ ext_bloq_comentados_patron_etiqueta (py "**A*" ++ [LF] ++ py "x")
      = bloques (recorrer pre estado_inicial).
Proof.
  destruct (proj1 ext_bloq_discards_unterminated (py "**A*" ++ [LF] ++ py "x"))
    as (pre & ap & resto & H1 & H2 & _ & _ & _ & H3 & _).
  - vm_compute. reflexivity.
  - exists pre, ap, resto. split_and!; assumption.
Defined.

(** C10.  Every block returned has at least two lines; its first and its
    last line are label lines and no line between them is; and the blocks
    are as many as half the label lines of the text, rounded down. *)
Theorem ext_bloq_blocks_shape (texto : str) :
  Forall (λ b, ∃ apertura medio cierre,
            splitlines b = apertura :: medio ++ [cierre]
            ∧ 2 ≤ length (splitlines b)
            ∧ es_patron_etiqueta apertura = true
            ∧ sin_etiquetas medio
            ∧ es_patron_etiqueta cierre = true)
         (ext_bloq_comentados_patron_etiqueta texto)
  ∧ length (ext_bloq_comentados_patron_etiqueta texto)
    = length (filter (λ l, es_patron_etiqueta l = true) (splitlines texto))
      / 2.
Proof.
  pose proof (ext_bloq_emparejado texto) as Hemp.
  split; [|by apply emparejado_length].
  pose proof (splitlines_sin_saltos texto) as Hsaltos.
  rewrite Forall_forall in Hsaltos.
  eapply Forall_impl; [by apply emparejado_forma|]. cbn beta.
  intros b (ap & medio & ci & -> & Hap & Hmedio & Hci & Hsub).
  exists ap, medio, ci.
  rewrite splitlines_join.
  - split_and!; [done| |done..]. simpl. rewrite length_app. simpl. lia.
  - apply Forall_forall. intros l Hl. by apply Hsaltos, Hsub.
  - intros x Hx. rewrite (app_comm_cons medio [ci] ap), last_snoc in Hx.
    injection Hx as <-. by apply es_patron_etiqueta_no_vacia.
Qed.

(** * Further properties *)

(** ** More on trimming *)

Lemma lstrip_spaces (ws : str) :
  Forall (λ x, isspace x = true) ws → lstrip ws = [].
Proof. induction 1 as [|w ws Hw _ IH]; simpl; [done|]. by rewrite Hw. Qed.

Lemma lstrip_app_spaces_l (ws t : str) :
  Forall (λ x, isspace x = true) ws → lstrip (ws ++ t) = lstrip t.
Proof. induction 1 as [|w ws Hw _ IH]; simpl; [done|]. by rewrite Hw. Qed.

Lemma lstrip_app_spaces_r (t ws : str) :
  Forall (λ x, isspace x = true) ws →
  ∃ ws', lstrip (t ++ ws) = lstrip t ++ ws'
         ∧ Forall (λ x, isspace x = true) ws'.
Proof.
  intros Hws. induction t as [|c t IH]; simpl.
  - exists []. by rewrite lstrip_spaces.
  - destruct (isspace c); [done|]. by exists ws.
Qed.

(** Whitespace around a string does not survive [strip]. *)
Lemma strip_app_spaces (ws1 t ws2 : str) :
  Forall (λ x, isspace x = true) ws1 →
  Forall (λ x, isspace x = true) ws2 →
  strip (ws1 ++ t ++ ws2) = strip t.
Proof.
  intros H1 H2. unfold strip. rewrite lstrip_app_spaces_l by done.
  destruct (lstrip_app_spaces_r t ws2 H2) as (ws' & -> & Hws').
  by apply rstrip_app_spaces.
Qed.

(** A string is its trimmed part with whitespace on both sides. *)
Lemma strip_recompose (s : str) :
  ∃ ws1 ws2, s = ws1 ++ strip s ++ ws2
             ∧ Forall (λ x, isspace x = true) ws1
             ∧ Forall (λ x, isspace x = true) ws2.
Proof.
  destruct (lstrip_suffix s) as (ws1 & Hs & H1).
  destruct (rstrip_prefix (lstrip s)) as (ws2 & Hl & H2).
  exists ws1, ws2. split_and!; [|done..].
  unfold strip. by rewrite <- Hl.
Qed.

Lemma rstrip_idemp (s : str) : rstrip (rstrip s) = rstrip s.
Proof. apply rstrip_id, rstrip_last. Qed.

Lemma length_rstrip (s : str) : length (rstrip s) ≤ length s.
Proof.
  destruct (rstrip_prefix s) as (ws & Hs & _).
  rewrite Hs at 2. rewrite length_app. lia.
Qed.

Lemma length_strip (s : str) : length (strip s) ≤ length s.
Proof.
  destruct (strip_recompose s) as (ws1 & ws2 & Hs & _).
  rewrite Hs at 2. rewrite !length_app. lia.
Qed.

Lemma strip_spaces (ws : str) :
  Forall (λ x, isspace x = true) ws → strip ws = [].
Proof. intros H. unfold strip. by rewrite lstrip_spaces. Qed.

Lemma elem_of_spaces (x : N) (ws : str) :
  Forall (λ x, isspace x = true) ws → x ∈ ws → isspace x = true.
Proof. rewrite Forall_forall. auto. Qed.

(** A character that is not whitespace stays where [strip] finds it. *)
Lemma elem_of_strip (x : N) (t : str) :
  x ∈ t → isspace x = false → x ∈ strip t.
Proof.
  intros Hin Hx. destruct (strip_recompose t) as (ws1 & ws2 & Ht & H1 & H2).
  rewrite Ht in Hin. rewrite !elem_of_app in Hin.
  destruct Hin as [Hin|[Hin|Hin]]; [|done|].
  - apply (elem_of_spaces _ _ H1) in Hin. congruence.
  - apply (elem_of_spaces _ _ H2) in Hin. congruence.
Qed.

(** ** Comment lines and separators with whitespace at the end *)

Lemma comentada_app_spaces (l ws : str) :
  Forall (λ x, isspace x = true) ws → comentada (l ++ ws) ↔ comentada l.
Proof.
  intros Hws. unfold comentada. rewrite length_app.
  destruct (decide (6 < length l)) as [Hlen|Hlen].
  - rewrite lookup_app_l by done. intuition lia.
  - split; [|intros [? _]; lia]. intros [_ Hlook].
    rewrite lookup_app_r in Hlook by lia.
    apply list_elem_of_lookup_2, (elem_of_spaces _ _ Hws) in Hlook. done.
Qed.

Lemma contenido_de_app_spaces (l ws : str) :
  Forall (λ x, isspace x = true) ws →
  contenido_de (l ++ ws) = contenido_de l.
Proof.
  intros Hws. unfold contenido_de. rewrite drop_app. f_equal.
  rewrite <- (app_nil_l (drop 7 l ++ _)).
  apply strip_app_spaces; [constructor|].
  apply Forall_forall. intros x Hx. apply (elem_of_spaces _ _ Hws).
  rewrite <- (take_drop (7 - length l) ws). apply elem_of_app. by right.
Qed.

Lemma length_contenido_de (l : str) : length (contenido_de l) + 7 ≤ length l ∨ contenido_de l = [].
Proof.
  unfold contenido_de.
  destruct (decide (7 ≤ length l)) as [Hlen|Hlen].
  - left. pose proof (length_filter (λ c, c ≠ space) (strip (drop 7 l))).
    pose proof (length_strip (drop 7 l)). rewrite length_drop in *. lia.
  - right. by rewrite drop_ge by lia.
Qed.

(** A separator is a comment line of at least 12 characters. *)
Lemma es_separador_true_inv (l : str) :
  es_separador l = Ok true →
  12 ≤ length l ∧ comentada l
  ∧ ∃ c n, 5 ≤ n ∧ contenido_de l = replicate n c.
Proof.
  rewrite es_separador_unfold. intros [= H]. apply bool_decide_eq_true in H.
  destruct H as (_ & Hstar & H5 & H1). fold (contenido_de l) in H5, H1.
  assert (12 ≤ length l) as Hlen.
  { destruct (length_contenido_de l) as [?|Hnil]; [lia|].
    rewrite Hnil in H5. simpl in H5. lia. }
  split_and!; [done|split; [lia|done]|]. by apply run_of_one_char.
Qed.

Lemma es_separador_app_spaces (l ws : str) :
  Forall (λ x, isspace x = true) ws →
  es_separador (l ++ ws) = es_separador l.
Proof.
  intros Hws. rewrite !es_separador_unfold. cbn zeta.
  fold (contenido_de (l ++ ws)). fold (contenido_de l).
  rewrite contenido_de_app_spaces by done. f_equal.
  apply bool_decide_ext. rewrite length_app. split.
  - intros (_ & Hlook & H5 & H1).
    assert (12 ≤ length l) as Hlen.
    { destruct (length_contenido_de l) as [?|Hnil]; [lia|].
      rewrite Hnil in H5. simpl in H5. lia. }
    rewrite lookup_app_l in Hlook by lia. split_and!; [lia|done..].
  - intros (Hlen & Hlook & H5 & H1).
    rewrite lookup_app_l by lia. split_and!; [lia|done..].
Qed.

Lemma rstrip_same_tests (l : str) :
  (comentada (rstrip l) ↔ comentada l)
  ∧ es_separador (rstrip l) = es_separador l.
Proof.
  destruct (rstrip_prefix l) as (ws & Hl & Hws).
  rewrite Hl at 2 4. split.
  - symmetry. by apply comentada_app_spaces.
  - symmetry. by apply es_separador_app_spaces.
Qed.

(** X1.  Whitespace at the end of the lines changes neither what
    [obtener_lineas_comentadas] returns nor what
    [obtener_num_lineas_comentadas] counts: lines read with their line end
    and the same lines trimmed on the right give the same results. *)
Theorem trailing_whitespace_irrelevant (lineas : list str) :
  obtener_lineas_comentadas (rstrip <$> lineas)
  = obtener_lineas_comentadas lineas
  ∧ obtener_num_lineas_comentadas (rstrip <$> lineas)
    = obtener_num_lineas_comentadas lineas.
Proof.
  unfold obtener_lineas_comentadas, obtener_num_lineas_comentadas.
  rewrite !bucle_lineas_comentadas_unfold, !bucle_num_lineas_unfold.
  split; f_equal; f_equal.
  - generalize 0. induction lineas as [|l r IH]; intros i; [done|].
    cbn [fmap list_fmap numeradas]. rewrite IH, rstrip_idemp.
    destruct (rstrip_same_tests l) as [Hc Hs]. f_equal.
    destruct (decide (comentada l ∧ es_separador l = Ok false)) as [H|H].
    + rewrite decide_True; [done|]. rewrite Hs. tauto.
    + rewrite decide_False; [done|]. rewrite Hs. tauto.
  - induction lineas as [|l r IH]; [done|].
    cbn [fmap list_fmap]. rewrite !filter_cons.
    destruct (rstrip_same_tests l) as [Hc _].
    destruct (decide (comentada l)) as [H|H].
    + rewrite decide_True by tauto. simpl. by f_equal.
    + rewrite decide_False by tauto. done.
Qed.

(** X2.  Every comment line is either collected or a separator, never both:
    the count of [obtener_num_lineas_comentadas] is the number of pairs of
    [obtener_lineas_comentadas] plus the number of separator lines. *)
Theorem num_lineas_is_collected_plus_separators (lineas : list str) :
  ∃ n r, obtener_num_lineas_comentadas lineas = Ok n
       ∧ obtener_lineas_comentadas lineas = Ok r
       ∧ n = length r
             + length (filter (λ l, es_separador l = Ok true) lineas).
Proof.
  unfold obtener_num_lineas_comentadas, obtener_lineas_comentadas.
  rewrite bucle_num_lineas_unfold, bucle_lineas_comentadas_unfold.
  do 2 eexists. split_and!; [done..|].
  cbn [app]. rewrite length_numeradas. simpl.
  induction lineas as [|l r IH]; [done|].
  rewrite !filter_cons.
  destruct (es_separador_total l) as [[] Hs].
  - destruct (es_separador_true_inv l Hs) as (_ & Hc & _).
    rewrite decide_True by done.
    rewrite decide_False by (rewrite Hs; by intros [_ [=]]).
    rewrite decide_True by done. simpl. lia.
  - rewrite (decide_False (P := es_separador l = Ok true)) by (by rewrite Hs).
    destruct (decide (comentada l)) as [Hc|Hc].
    + rewrite decide_True by done. simpl. lia.
    + rewrite decide_False by tauto. done.
Qed.

(** X3.  A separator is a comment line of at least 12 characters: [*] at
    offset 6 and five or more characters after it.  Lines of 10 or 11
    characters pass the length guard and are never separators. *)
Theorem separador_at_least_12 (s : str) :
  es_separador s = Ok true →
  12 ≤ length s ∧ 6 < length s ∧ s !! 6 = Some star.
Proof.
  intros H. destruct (es_separador_true_inv s H) as (Hlen & [? ?] & _).
  done.
Qed.

(** The bound is met: twelve characters can make a separator. *)
Lemma separador_at_least_12_tight :
  es_separador (py "      *-----") = Ok true
  ∧ 12 ≤ length (py "      *-----")
  ∧ 6 < length (py "      *-----")
  ∧ py "      *-----" !! 6 = Some star.
Proof.
  assert (es_separador (py "      *-----") = Ok true) as H by reflexivity.
  split; [exact H|]. exact (separador_at_least_12 _ H).
Defined.

(** ** Blanks inside a separator *)

Lemma filter_space_lstrip (t : str) :
  filter (λ c, c ≠ space) (lstrip t) = lstrip (filter (λ c, c ≠ space) t).
Proof.
  induction t as [|c t IH]; [done|]. cbn [lstrip]. rewrite filter_cons.
  destruct (decide (c ≠ space)) as [Hc|Hc].
  - cbn [lstrip]. destruct (isspace c); [done|]. by rewrite filter_cons_True.
  - apply dec_stable in Hc as ->. by change (isspace space) with true.
Qed.

Lemma filter_space_rstrip (t : str) :
  filter (λ c, c ≠ space) (rstrip t) = rstrip (filter (λ c, c ≠ space) t).
Proof.
  induction t as [|c t IH]; [done|]. cbn [rstrip]. rewrite (filter_cons _ c).
  pose proof (rstrip_last t) as Hlast.
  destruct (rstrip t) as [|d r] eqn:Hr.
  - destruct (decide (c ≠ space)) as [Hc|Hc].
    + cbn [rstrip]. rewrite <- IH. cbn [filter list_filter].
      destruct (isspace c); [done|]. by rewrite filter_cons_True.
    + apply dec_stable in Hc as ->. by change (isspace space) with true.
  - assert (filter (λ c, c ≠ space) (d :: r) ≠ []) as Hne.
    { destruct (exists_last (l := d :: r)) as (r' & z & Heq); [done|].
      rewrite Heq in Hlast |- *. rewrite last_snoc in Hlast.
      specialize (Hlast z eq_refl). rewrite filter_app.
      rewrite filter_cons_True by (by intros ->).
      by destruct (filter _ r'). }
    rewrite (filter_cons _ c). destruct (decide (c ≠ space)) as [Hc|Hc].
    + cbn [rstrip]. rewrite <- IH.
      by destruct (filter (λ c, c ≠ space) (d :: r)).
    + by rewrite <- IH.
Qed.

Lemma filter_space_strip (t : str) :
  filter (λ c, c ≠ space) (strip t) = strip (filter (λ c, c ≠ space) t).
Proof. unfold strip. by rewrite filter_space_rstrip, filter_space_lstrip. Qed.

(** X4.  Blanks after column 7 never matter to [es_separador]: two lines
    with the same first seven characters whose remainders agree once the
    space characters are taken out get the same answer. *)
Theorem es_separador_ignores_blanks (p t1 t2 : str) :
  length p = 7 →
  filter (λ c, c ≠ space) t1 = filter (λ c, c ≠ space) t2 →
  es_separador (p ++ t1) = es_separador (p ++ t2).
Proof.
  intros Hp Heq.
  assert (∀ t, contenido_de (p ++ t) = strip (filter (λ c, c ≠ space) t))
    as Hcont.
  { intros t. unfold contenido_de.
    rewrite drop_app_length' by done. apply filter_space_strip. }
  assert (∀ t, 5 ≤ length (contenido_de (p ++ t)) → 10 ≤ length (p ++ t))
    as Hlen.
  { intros t H5. destruct (length_contenido_de (p ++ t)) as [?|Hnil]; [lia|].
    rewrite Hnil in H5. simpl in H5. lia. }
  rewrite !es_separador_unfold. cbn zeta.
  fold (contenido_de (p ++ t1)). fold (contenido_de (p ++ t2)).
  f_equal. apply bool_decide_ext.
  rewrite !lookup_app_l by lia.
  pose proof (Hlen t1). pose proof (Hlen t2).
  rewrite !Hcont, Heq in *. tauto.
Qed.

Lemma es_separador_ignores_blanks_example :
  es_separador (py "      *" ++ py "=====")
  = es_separador (py "      *" ++ py " = = = = = ").
Proof. by apply es_separador_ignores_blanks. Defined.

(** ** Label lines *)

Lemma es_patron_etiqueta_strip (s : str) :
  es_patron_etiqueta s = true →
  ∃ c, letra c ∧ strip s = [star; star; c; star].
Proof.
  unfold es_patron_etiqueta, re_match, patron_etiqueta.
  pose proof (strip_last s) as Hlast.
  destruct (strip s) as [|a [|b [|c [|d rest]]]]; cbn [match_here andb];
    rewrite ?andb_false_r; try done.
  unfold star. rewrite !andb_true_iff, in_class_letra, !N.eqb_eq.
  intros (-> & -> & Hc & -> & Heol & _). exists c. split; [done|].
  destruct rest as [|e [|f rest]]; simpl in Heol; [done| |done].
  apply N.eqb_eq in Heol as ->. by specialize (Hlast LF eq_refl).
Qed.

(** X5.  Whitespace before and after a line, indentation and line end
    alike, does not change whether it is a label line. *)
Theorem es_patron_etiqueta_ignores_margins (ws1 s ws2 : str) :
  Forall (λ x, isspace x = true) ws1 →
  Forall (λ x, isspace x = true) ws2 →
  es_patron_etiqueta (ws1 ++ s ++ ws2) = es_patron_etiqueta s.
Proof.
  intros H1 H2. unfold es_patron_etiqueta. by rewrite strip_app_spaces.
Qed.

Lemma es_patron_etiqueta_ignores_margins_example :
  es_patron_etiqueta (py "   " ++ py "**A*" ++ [TAB; CR; LF])
  = es_patron_etiqueta (py "**A*").
Proof.
  apply es_patron_etiqueta_ignores_margins; by repeat constructor.
Defined.

(** X6.  A label line is never a separator, wherever it stands in its
    line: only four of its characters are not whitespace. *)
Theorem etiqueta_no_es_separador (s : str) :
  es_patron_etiqueta s = true → es_separador s = Ok false.
Proof.
  intros H. apply es_patron_etiqueta_strip in H as (c & _ & Hstrip).
  destruct (strip_recompose s) as (ws1 & ws2 & Hs & H1 & H2).
  rewrite Hstrip in Hs.
  assert (length (contenido_de s) ≤ 4) as Hlen.
  { unfold contenido_de. rewrite Hs, !drop_app.
    rewrite strip_app_spaces.
    - etransitivity; [apply length_filter|].
      etransitivity; [apply length_strip|].
      rewrite length_drop. simpl. lia.
    - apply Forall_forall. intros x Hx. apply (elem_of_spaces _ _ H1).
      rewrite <- (take_drop 7 ws1). apply elem_of_app. by right.
    - apply Forall_forall. intros x Hx. apply (elem_of_spaces _ _ H2).
      rewrite <- (take_drop (7 - length ws1 - length [star; star; c; star]) ws2).
      apply elem_of_app. by right. }
  rewrite es_separador_unfold. cbn zeta. fold (contenido_de s).
  f_equal. apply bool_decide_eq_false. lia.
Qed.

(** A label line in column 7 is a comment line and is collected. *)
Lemma etiqueta_no_es_separador_example :
  es_separador (py "      **A*") = Ok false
  ∧ obtener_lineas_comentadas [py "      **A*"] = Ok [(1, py "      **A*")].
Proof.
  split; [|reflexivity].
  apply etiqueta_no_es_separador. reflexivity.
Defined.

(** ** Comment lines with DISPLAY are not separators *)

Lemma ascii_toupper_inv (x y : N) :
  ascii_toupper x = y → x = y ∨ x = (y + 32)%N.
Proof.
  unfold ascii_toupper. destruct (_ && _) eqn:Hx; [|by left].
  apply andb_true_iff in Hx as [Hx%N.leb_le _]. intros <-. right. lia.
Qed.

Section DisplayNoSeparador.
Variable toupper_full : N → str.
Hypothesis toupper_ascii : ∀ c, es_ascii c → toupper_full c = [ascii_toupper c].

Lemma ocurre_display_ascii (l : str) :
  Forall es_ascii l →
  ocurre_en DISPLAY (upper toupper_full l) →
  ∃ pre w post, l = pre ++ w ++ post ∧ ascii_toupper <$> w = DISPLAY.
Proof.
  intros Hascii (pre & post & Heq).
  rewrite (upper_ascii toupper_full toupper_ascii) in Heq by done.
  apply fmap_app_inv in Heq as (pre' & rest & -> & Heq & ->).
  symmetry in Heq. apply fmap_app_inv in Heq as (w & post' & Hw & -> & ->).
  by exists pre', w, post'.
Qed.

(** In a line of ASCII characters that holds the token, [*] at offset 6
    pushes the token past it, and its letters then differ among what
    [es_separador] wants to be one character. *)
Lemma display_no_es_separador (l : str) :
  Forall es_ascii l → comentada l →
  ocurre_en DISPLAY (upper toupper_full l) →
  es_separador l = Ok false.
Proof.
  intros Hascii [Hlen Hstar] Hocc.
  destruct (es_separador_total l) as [[] Hsep]; [exfalso|done].
  destruct (es_separador_true_inv l Hsep) as (_ & _ & c & n & _ & Hrep).
  destruct (ocurre_display_ascii l Hascii Hocc) as (pre & w & post & -> & Hw).
  assert (length w = 7) as Hw7.
  { by rewrite <- (length_fmap ascii_toupper), Hw. }
  destruct (decide (length pre ≤ 6)) as [Hpre|Hpre].
  - rewrite lookup_app_r, lookup_app_l in Hstar by lia.
    apply list_elem_of_lookup_2 in Hstar.
    apply (list_elem_of_fmap_2 ascii_toupper) in Hstar. rewrite Hw in Hstar.
    revert Hstar. apply (bool_decide_unpack _). by vm_compute.
  - destruct w as [|d [|i w']]; [done..|].
    injection Hw as Hd Hi _.
    assert (∀ x, x ∈ [d; i]
                 → x ∈ contenido_de (pre ++ (d :: i :: w') ++ post)) as Hin.
    { intros x Hx.
      assert (isspace x = false ∧ x ≠ space) as [Hsp Hne].
      { apply elem_of_cons in Hx as [->|Hx%list_elem_of_singleton].
        - apply ascii_toupper_inv in Hd as [->| ->]; by vm_compute.
        - subst x. apply ascii_toupper_inv in Hi as [->| ->]; by vm_compute. }
      unfold contenido_de. apply list_elem_of_filter. split; [done|].
      apply elem_of_strip; [|done]. rewrite drop_app.
      apply elem_of_app. right.
      replace (7 - length pre) with 0 by lia. simpl.
      rewrite !elem_of_cons. rewrite !elem_of_cons, elem_of_nil in Hx. tauto. }
    rewrite Hrep in Hin.
    assert (d = c) as -> by (eapply elem_of_replicate, Hin; set_solver).
    assert (i = c) as -> by (eapply elem_of_replicate, Hin; set_solver).
    rewrite Hd in Hi. by vm_compute in Hi.
Qed.

(** X7.  When the lines hold ASCII characters only, every pair that
    [obtener_lineas_comentadas_con_display] returns is also returned by
    [obtener_lineas_comentadas]: a comment line with DISPLAY is not taken
    for a separator. *)
Theorem display_lines_are_collected (lineas : list str) :
  Forall (Forall es_ascii) lineas →
  ∃ r1 r2,
    obtener_lineas_comentadas_con_display toupper_full lineas = Ok r1
    ∧ obtener_lineas_comentadas lineas = Ok r2
    ∧ r1 ⊆ r2.
Proof.
  intros Hascii. rewrite Forall_forall in Hascii.
  unfold obtener_lineas_comentadas_con_display, obtener_lineas_comentadas.
  rewrite bucle_con_display_unfold, bucle_lineas_comentadas_unfold.
  do 2 eexists. split_and!; [done..|]. cbn [app].
  intros [n c]. rewrite !elem_of_numeradas.
  intros (linea & Hn & Hlook & [Hcom Hcont] & ->).
  exists linea. split_and!; [done..| |done].
  apply display_no_es_separador; [|done|by apply contains_spec].
  by eapply Hascii, list_elem_of_lookup_2.
Qed.
End DisplayNoSeparador.

Lemma display_lines_are_collected_example :
  ∃ r1 r2,
    obtener_lineas_comentadas_con_display toupper_ascii_only
      [py "      * display x"; py "      *-------"; py "       DISPLAY"] = Ok r1
    ∧ obtener_lineas_comentadas
        [py "      * display x"; py "      *-------"; py "       DISPLAY"]
      = Ok r2
    ∧ r1 ⊆ r2.
Proof.
  apply (display_lines_are_collected toupper_ascii_only (λ c _, eq_refl)).
  repeat constructor.
Defined.

(** ** More on the block extractor *)

(** One opening label line, lines that are not labels, one closing label
    line: the run emits their join and is outside a block again. *)
Lemma recorrer_par bs apertura medio cierre :
  es_patron_etiqueta apertura = true → sin_etiquetas medio →
  es_patron_etiqueta cierre = true →
  recorrer (apertura :: medio ++ [cierre]) (Estado bs [] false)
  = Estado (bs ++ [join [LF] (apertura :: medio ++ [cierre])]) [] false.
Proof.
  intros Hap Hmedio Hci. rewrite recorrer_cons. unfold paso at 1.
  rewrite Hap. cbn [dentro_bloque bloques bloque_actual app].
  rewrite recorrer_app, recorrer_sin_etiquetas_dentro by done.
  rewrite recorrer_cons. unfold paso. rewrite Hci. reflexivity.
Qed.

(** X8.  Each block returned is a fixed point of the extractor: given back
    as the text, it yields itself and nothing else. *)
Theorem ext_bloq_of_block (texto : str) :
  Forall (λ b, ext_bloq_comentados_patron_etiqueta b = [b])
         (ext_bloq_comentados_patron_etiqueta texto).
Proof.
  pose proof (splitlines_sin_saltos texto) as Hsaltos.
  rewrite Forall_forall in Hsaltos.
  eapply Forall_impl; [apply emparejado_forma, ext_bloq_emparejado|].
  cbn beta. intros b (ap & medio & ci & -> & Hap & Hmedio & Hci & Hsub).
  unfold ext_bloq_comentados_patron_etiqueta at 1.
  rewrite splitlines_join.
  - unfold estado_inicial. by rewrite recorrer_par.
  - apply Forall_forall. intros l Hl. by apply Hsaltos, Hsub.
  - intros x Hx. rewrite (app_comm_cons medio [ci] ap), last_snoc in Hx.
    injection Hx as <-. by apply es_patron_etiqueta_no_vacia.
Qed.

Lemma dentro_bloque_recorrer lineas st :
  dentro_bloque (recorrer lineas st)
  = xorb (dentro_bloque st)
         (Nat.odd (length (filter (λ l, es_patron_etiqueta l = true) lineas))).
Proof.
  revert st. induction lineas as [|l lineas IH]; intros st.
  { simpl. by rewrite xorb_false_r. }
  rewrite recorrer_cons, IH, filter_cons. unfold paso.
  destruct (es_patron_etiqueta l) eqn:Hl.
  - rewrite decide_True by done. cbn [length].
    rewrite Nat.odd_succ, <- Nat.negb_odd.
    destruct st as [bs buf []], (Nat.odd _); reflexivity.
  - rewrite decide_False by done. by destruct st as [bs buf []].
Qed.

(** The buffer is empty exactly when the run is outside a block. *)
Lemma bloque_actual_recorrer lineas st :
  (bloque_actual st = [] ↔ dentro_bloque st = false) →
  bloque_actual (recorrer lineas st) = []
  ↔ dentro_bloque (recorrer lineas st) = false.
Proof.
  revert st. induction lineas as [|l lineas IH]; intros st Hst; [done|].
  rewrite recorrer_cons. apply IH. unfold paso.
  destruct (es_patron_etiqueta l), (dentro_bloque st) eqn:Hd;
    cbn [dentro_bloque bloque_actual]; try done.
  - split; [|done]. by intros [_ [=]]%app_eq_nil.
  - split; [|done]. by intros [_ [=]]%app_eq_nil.
  - by rewrite Hd.
Qed.

(** X9.  The run over a text ends inside a block, with a buffer to drop,
    exactly when the text has an odd number of label lines; otherwise the
    buffer is empty at the end. *)
Theorem unterminated_iff_odd_labels (texto : str) :
  let st := recorrer (splitlines texto) estado_inicial in
  dentro_bloque st
  = Nat.odd (length (filter (λ l, es_patron_etiqueta l = true)
                            (splitlines texto)))
  ∧ (bloque_actual st = [] ↔ dentro_bloque st = false).
Proof.
  cbn zeta. split.
  - by rewrite dentro_bloque_recorrer.
  - by apply bloque_actual_recorrer.
Qed.

(** Blocks emitted before a run do not influence it. *)
Lemma bloques_recorrer lineas bs buf d :
  recorrer lineas (Estado bs buf d)
  = let st := recorrer lineas (Estado [] buf d) in
    Estado (bs ++ bloques st) (bloque_actual st) (dentro_bloque st).
Proof.
  cbn zeta. revert bs buf d.
  induction lineas as [|l lineas IH]; intros bs buf d.
  { simpl. by rewrite app_nil_r. }
  rewrite !recorrer_cons. unfold paso.
  cbn [dentro_bloque bloques bloque_actual app].
  destruct (es_patron_etiqueta l), d; try apply IH.
  rewrite IH. rewrite (IH [_]). cbn [bloques bloque_actual dentro_bloque].
  by rewrite <- app_assoc.
Qed.

(** A newline between two texts keeps their lines apart. *)
Lemma splitlines_from_app_LF t1 t2 cur :
  splitlines_from cur (t1 ++ LF :: t2)
  = splitlines_from cur (t1 ++ [LF]) ++ splitlines t2.
Proof.
  unfold splitlines. revert cur.
  induction t1 as [|c t IH]; intros cur; [done|].
  cbn [app splitlines_from].
  destruct (is_linebreak c); [|apply IH].
  destruct (c =? CR)%N; [|by rewrite IH].
  destruct t as [|c' t'].
  { cbn [app]. change (LF =? LF)%N with true. cbv iota. done. }
  cbn [app]. destruct (N.eqb_spec c' LF) as [->|Hne]; [|by rewrite IH].
  specialize (IH []). cbn [app splitlines_from] in IH.
  change (is_linebreak LF) with true in IH.
  change (LF =? CR)%N with false in IH. cbv iota in IH.
  injection IH as IH. by rewrite IH.
Qed.

(** X10.  Text added after a newline never changes the blocks already
    found: the blocks of the text so far begin the blocks of the longer
    text. *)
Theorem ext_bloq_prefix (t1 t2 : str) :
  ext_bloq_comentados_patron_etiqueta (t1 ++ [LF])
  `prefix_of` ext_bloq_comentados_patron_etiqueta (t1 ++ LF :: t2).
Proof.
  unfold ext_bloq_comentados_patron_etiqueta, splitlines.
  rewrite (splitlines_from_app_LF t1 t2), recorrer_app.
  destruct (recorrer (splitlines_from [] (t1 ++ [LF])) estado_inicial)
    as [bs buf d].
  rewrite bloques_recorrer. cbn [bloques]. by eexists.
Qed.

(** X11.  When the first of two texts ends outside a block, the blocks of
    the two texts joined by a newline are the blocks of the first followed
    by the blocks of the second. *)
Theorem ext_bloq_app (t1 t2 : str) :
  dentro_bloque (recorrer (splitlines (t1 ++ [LF])) estado_inicial) = false →
  ext_bloq_comentados_patron_etiqueta (t1 ++ LF :: t2)
  = ext_bloq_comentados_patron_etiqueta (t1 ++ [LF])
    ++ ext_bloq_comentados_patron_etiqueta t2.
Proof.
  intros Hfuera. unfold ext_bloq_comentados_patron_etiqueta.
  unfold splitlines at 1.
  rewrite (splitlines_from_app_LF t1 t2), recorrer_app.
  fold (splitlines (t1 ++ [LF])).
  assert (bloque_actual (recorrer (splitlines (t1 ++ [LF])) estado_inicial)
          = []) as Hbuf by (by apply bloque_actual_recorrer).
  destruct (recorrer (splitlines (t1 ++ [LF])) estado_inicial)
    as [bs buf d].
  cbn [dentro_bloque bloque_actual bloques] in *. subst.
  by rewrite bloques_recorrer.
Qed.

Lemma ext_bloq_app_example :
  ext_bloq_comentados_patron_etiqueta
    ((py "**A*" ++ [LF] ++ py "uno" ++ [LF] ++ py "**B*")
     ++ LF :: (py "dos" ++ [CR; LF] ++ py "**C*" ++ [LF] ++ py "**D*"))
  = ext_bloq_comentados_patron_etiqueta
      ((py "**A*" ++ [LF] ++ py "uno" ++ [LF] ++ py "**B*") ++ [LF])
    ++ ext_bloq_comentados_patron_etiqueta
         (py "dos" ++ [CR; LF] ++ py "**C*" ++ [LF] ++ py "**D*").
Proof. apply ext_bloq_app. by vm_compute. Defined.

(** ** [cargar_palabras_reservadas] *)

Lemma lstrip_head (s : str) (c : N) :
  head (lstrip s) = Some c → isspace c = false.
Proof.
  induction s as [|d s IH]; simpl; [done|].
  destruct (isspace d) eqn:Hd; [done|]. simpl. by intros [= <-].
Qed.

Lemma lstrip_id (s : str) :
  (∀ c, head s = Some c → isspace c = false) → lstrip s = s.
Proof. destruct s as [|c s]; simpl; [done|]. intros H. by rewrite (H c). Qed.

Lemma strip_idemp (s : str) : strip (strip s) = strip s.
Proof.
  unfold strip. rewrite (lstrip_id (rstrip _)); [apply rstrip_idemp|].
  intros c Hc. apply (lstrip_head s).
  destruct (rstrip_prefix (lstrip s)) as (ws & Heq & _).
  rewrite Heq. by destruct (rstrip (lstrip s)).
Qed.

Lemma elem_of_strip_inv (x : N) (s : str) : x ∈ strip s → x ∈ s.
Proof.
  intros Hx. destruct (strip_recompose s) as (ws1 & ws2 & Hs & _).
  rewrite Hs, !elem_of_app. tauto.
Qed.

(** The lines of a file hold no line end, but for the newline that closes
    them. *)
Lemma lineas_de_fichero_from_forma s cur :
  Forall sin_fin cur →
  Forall (λ l, ∃ cuerpo, Forall sin_fin cuerpo
                         ∧ (l = cuerpo ++ [LF] ∨ l = cuerpo))
         (lineas_de_fichero_from cur s).
Proof.
  revert cur. induction s as [|c t IH]; intros cur Hcur; simpl.
  { destruct cur; repeat constructor. exists (n :: cur). auto. }
  assert (Forall (λ l, ∃ cuerpo, Forall sin_fin cuerpo
                                 ∧ (l = cuerpo ++ [LF] ∨ l = cuerpo))
                 ((cur ++ [LF]) :: lineas_de_fichero_from [] t)) as Hdef.
  { constructor; [exists cur; auto|]. apply IH. constructor. }
  destruct (N.eqb_spec c LF) as [->|Hlf]; [done|].
  destruct (N.eqb_spec c CR) as [->|Hcr].
  - destruct t as [|c' t']; [done|].
    destruct (N.eqb_spec c' LF) as [->|]; [|done].
    constructor; [exists cur; auto|].
    specialize (IH [] (Forall_nil_2 _)). simpl in IH. by inversion IH.
  - apply IH. apply Forall_app. split; [done|]. by repeat constructor.
Qed.

(** X12.  Whatever the file system holds, every word that
    [cargar_palabras_reservadas] returns is not empty, has no whitespace at
    either end, and holds no line end. *)
Theorem cargar_palabras_reservadas_limpias (fs : gmap str fichero)
    (ruta_fichero : str) :
  Forall palabra_limpia (cargar_palabras_reservadas fs ruta_fichero).1.
Proof.
  unfold cargar_palabras_reservadas, lineas_de_fichero.
  destruct (fs !! ruta_fichero) as [[texto|e]|]; cbn [fst]; [|constructor..].
  apply Forall_fmap, Forall_forall. intros l [Hne Hl]%list_elem_of_filter.
  pose proof (lineas_de_fichero_from_forma texto [] (Forall_nil_2 _)) as Hforma.
  rewrite Forall_forall in Hforma.
  destruct (Hforma l Hl) as (cuerpo & Hcuerpo & Hcases).
  unfold palabra_limpia. cbn beta. split_and!; [done|apply strip_idemp|].
  assert (strip l = strip cuerpo) as ->.
  { destruct Hcases as [-> | ->]; [|done].
    rewrite <- (app_nil_l (cuerpo ++ [LF])).
    apply strip_app_spaces; by repeat constructor. }
  apply Forall_forall. intros x Hx%elem_of_strip_inv.
  rewrite Forall_forall in Hcuerpo. by apply Hcuerpo.
Qed.

Lemma lineas_de_fichero_from_palabra w cur s :
  Forall sin_fin w →
  lineas_de_fichero_from cur (w ++ s) = lineas_de_fichero_from (cur ++ w) s.
Proof.
  intros Hw. revert cur. induction Hw as [|c w [Hlf Hcr] _ IH]; intros cur.
  { by rewrite app_nil_r. }
  cbn [app lineas_de_fichero_from].
  rewrite (proj2 (N.eqb_neq c LF)), (proj2 (N.eqb_neq c CR)) by done.
  by rewrite IH, <- app_assoc.
Qed.

(** Any of the three line ends closes the line, when what follows does not
    begin with a newline that would pair up with a carriage return. *)
Lemma lineas_de_fichero_from_sep sep cur s :
  sep ∈ [[LF]; [CR]; [CR; LF]] →
  head s ≠ Some LF →
  lineas_de_fichero_from cur (sep ++ s)
  = (cur ++ [LF]) :: lineas_de_fichero_from [] s.
Proof.
  intros Hsep Hs. rewrite !elem_of_cons, elem_of_nil in Hsep.
  destruct Hsep as [->|[->|[->|[]]]]; [done| |done].
  cbn [app lineas_de_fichero_from]. change (CR =? LF)%N with false.
  change (CR =? CR)%N with true. cbv iota.
  destruct s as [|c s]; [done|].
  destruct (N.eqb_spec c LF) as [->|]; [|done]. by destruct Hs.
Qed.

Lemma palabra_limpia_head (w s : str) :
  palabra_limpia w → head (w ++ s) ≠ Some LF.
Proof.
  intros (Hne & _ & Hw). destruct w as [|c w]; [done|].
  inversion Hw as [|? ? [Hlf _]]; subst. simpl. by intros [= ->].
Qed.

Lemma strip_palabra_LF (w : str) :
  palabra_limpia w → strip w = w ∧ strip (w ++ [LF]) = w.
Proof.
  intros (_ & Hw & _). split; [done|].
  rewrite <- (app_nil_l (w ++ [LF])), strip_app_spaces; [done|..];
    by repeat constructor.
Qed.

(** Reading back the lines of words written one per line. *)
Lemma palabras_de_lineas sep fin ws :
  sep ∈ [[LF]; [CR]; [CR; LF]] → fin ∈ [[]; sep] →
  Forall palabra_limpia ws →
  strip <$> filter (λ linea, strip linea ≠ [])
                   (lineas_de_fichero (join sep ws ++ fin))
  = ws.
Proof.
  intros Hsep Hfin Hws. unfold lineas_de_fichero.
  rewrite !elem_of_cons, elem_of_nil in Hfin.
  induction Hws as [|w ws Hw Hws IH].
  { destruct Hfin as [->|[->|[]]]; [done|]. cbn [join app].
    rewrite <- (app_nil_r sep), lineas_de_fichero_from_sep by done.
    cbn [app lineas_de_fichero_from]. rewrite filter_cons.
    by rewrite decide_False by (by intros []). }
  destruct (strip_palabra_LF w Hw) as [Hs1 Hs2].
  assert (w ≠ []) as Hne by apply Hw.
  assert (Forall sin_fin w) as Hsf by apply Hw.
  destruct ws as [|w' ws].
  - cbn [join]. rewrite lineas_de_fichero_from_palabra by done. cbn [app].
    destruct Hfin as [->|[->|[]]].
    + destruct w as [|c w]; [done|]. cbn [lineas_de_fichero_from].
      rewrite filter_cons, decide_True by (by rewrite Hs1).
      rewrite filter_nil. cbn [fmap list_fmap]. by rewrite Hs1.
    + rewrite <- (app_nil_r sep), lineas_de_fichero_from_sep by done.
      cbn [lineas_de_fichero_from].
      rewrite filter_cons, decide_True by (by rewrite Hs2).
      rewrite filter_nil. cbn [fmap list_fmap]. by rewrite Hs2.
  - change (join sep (w :: w' :: ws)) with (w ++ sep ++ join sep (w' :: ws)).
    rewrite <- !app_assoc, lineas_de_fichero_from_palabra by done.
    rewrite lineas_de_fichero_from_sep; [|done|].
    + cbn [app]. rewrite filter_cons, decide_True by (by rewrite Hs2).
      cbn [fmap list_fmap]. rewrite Hs2. f_equal. apply IH.
    + inversion Hws as [|? ? Hw' _]; subst.
      destruct ws as [|w'' ws]; cbn [join].
      * by apply palabra_limpia_head.
      * rewrite <- !app_assoc. by apply palabra_limpia_head.
Qed.

(** X13.  Words written one per line are read back as they are: for clean
    words, any of the line ends ["\n"], ["\r"], ["\r\n"], and with or without
    a line end after the last word, [cargar_palabras_reservadas] returns the
    words in order and prints nothing. *)
Theorem cargar_palabras_reservadas_round_trip (fs : gmap str fichero)
    (ruta_fichero : str) (sep fin : str) (ws : list str) :
  sep ∈ [[LF]; [CR]; [CR; LF]] → fin ∈ [[]; sep] →
  Forall palabra_limpia ws →
  fs !! ruta_fichero = Some (Legible (join sep ws ++ fin)) →
  cargar_palabras_reservadas fs ruta_fichero = (ws, []).
Proof.
  intros Hsep Hfin Hws Hfs. unfold cargar_palabras_reservadas.
  rewrite Hfs. cbn zeta. f_equal. by apply palabras_de_lineas.
Qed.

Lemma cargar_palabras_reservadas_round_trip_example :
  cargar_palabras_reservadas
    {[ py "palabras.txt" :=
         Legible (join [CR; LF] [py "MOVE"; py "GO TO"; py "END-IF"]
                  ++ [CR; LF]) ]}
    (py "palabras.txt")
  = ([py "MOVE"; py "GO TO"; py "END-IF"], []).
Proof.
  apply (cargar_palabras_reservadas_round_trip _ _ [CR; LF] [CR; LF]).
  - set_solver.
  - set_solver.
  - repeat constructor; by vm_compute.
  - apply lookup_singleton_eq.
Defined.

(** ** Lines in pieces, results given back *)

Section NumeradasMore.
Context (P : str → Prop) `{∀ l, Decision (P l)}.

Lemma numeradas_app i l1 l2 :
  numeradas P i (l1 ++ l2)
  = numeradas P i l1 ++ numeradas P (i + length l1) l2.
Proof.
  revert i. induction l1 as [|l l1 IH]; intros i; cbn [app numeradas length].
  - by rewrite Nat.add_0_r.
  - rewrite IH, <- app_assoc. do 3 f_equal. lia.
Qed.

Lemma numeradas_shift k i lineas :
  numeradas P (k + i) lineas
  = prod_map (Nat.add k) id <$> numeradas P i lineas.
Proof.
  revert i. induction lineas as [|l lineas IH]; intros i; [done|].
  cbn [numeradas]. rewrite fmap_app, <- IH.
  replace (S (k + i)) with (k + S i) by lia. f_equal.
  destruct (decide (P l)); [|done]. cbn. do 2 f_equal. lia.
Qed.

Lemma numeradas_contenidos i lineas :
  (numeradas P i lineas).*2 = rstrip <$> filter P lineas.
Proof.
  revert i. induction lineas as [|l lineas IH]; intros i; [done|].
  cbn [numeradas]. rewrite fmap_app, IH, filter_cons.
  by destruct (decide (P l)).
Qed.

Lemma numeradas_todas i lineas :
  Forall P lineas →
  numeradas P i lineas = zip (seq (i + 1) (length lineas)) (rstrip <$> lineas).
Proof.
  intros Hall. revert i. induction Hall as [|l lineas Hl _ IH]; intros i.
  { done. }
  cbn [numeradas length seq fmap list_fmap zip zip_with].
  rewrite decide_True by done. cbn [app]. f_equal.
  rewrite IH. by replace (S i + 1) with (S (i + 1)) by lia.
Qed.
End NumeradasMore.

(** X14.  [obtener_lineas_comentadas] can work through a program in two
    pieces: the result for [l1 ++ l2] is the result for [l1] followed by the
    result for [l2] with its line numbers moved up by the length of [l1];
    the counts of [obtener_num_lineas_comentadas] add up. *)
Theorem obtener_lineas_comentadas_app (l1 l2 : list str) :
  ∃ r1 r2 n1 n2,
    obtener_lineas_comentadas l1 = Ok r1
    ∧ obtener_lineas_comentadas l2 = Ok r2
    ∧ obtener_lineas_comentadas (l1 ++ l2)
      = Ok (r1 ++ (prod_map (Nat.add (length l1)) id <$> r2))
    ∧ obtener_num_lineas_comentadas l1 = Ok n1
    ∧ obtener_num_lineas_comentadas l2 = Ok n2
    ∧ obtener_num_lineas_comentadas (l1 ++ l2) = Ok (n1 + n2).
Proof.
  unfold obtener_lineas_comentadas, obtener_num_lineas_comentadas.
  rewrite !bucle_lineas_comentadas_unfold, !bucle_num_lineas_unfold.
  do 4 eexists. split_and!; try done.
  - cbn [app]. rewrite numeradas_app. do 2 f_equal.
    rewrite <- numeradas_shift. f_equal. lia.
  - by rewrite filter_app, length_app.
Qed.

(** X15.  The contents that [obtener_lineas_comentadas] returns are stable:
    given back as lines, all of them are returned again, unchanged and
    numbered from 1. *)
Theorem obtener_lineas_comentadas_stable (lineas : list str) :
  ∃ r, obtener_lineas_comentadas lineas = Ok r
     ∧ obtener_lineas_comentadas r.*2 = Ok (zip (seq 1 (length r)) r.*2).
Proof.
  unfold obtener_lineas_comentadas.
  rewrite bucle_lineas_comentadas_unfold. cbn [app].
  eexists. split; [done|].
  rewrite bucle_lineas_comentadas_unfold. cbn [app]. f_equal.
  rewrite numeradas_contenidos.
  set (P := λ l, comentada l ∧ es_separador l = Ok false).
  assert (Forall P (rstrip <$> filter P lineas)) as Hall.
  { apply Forall_fmap, Forall_forall. intros l [Hl _]%list_elem_of_filter.
    destruct (rstrip_same_tests l) as [Hc Hs]. unfold P in *. cbn.
    rewrite Hs. tauto. }
  rewrite (numeradas_todas P 0 _ Hall).
  rewrite length_fmap, length_numeradas, <- list_fmap_compose. f_equal.
  apply list_fmap_ext. intros _ l _. cbn. apply rstrip_idemp.
Qed.

(** ** Blocks and the lines of the text *)

Lemma emparejado_sublist lineas bs :
  emparejado lineas bs →
  Forall (Forall sin_salto) lineas →
  concat (splitlines <$> bs) `sublist_of` lineas.
Proof.
  induction 1 as [| |pre ap medio ci resto bs Hpre Hap Hmedio Hci _ IH];
    intros Hsaltos; [apply sublist_nil_l..|].
  cbn [fmap list_fmap concat].
  assert (pre ++ ap :: medio ++ ci :: resto
          = pre ++ (ap :: medio ++ [ci]) ++ resto) as Heq.
  { cbn [app]. by rewrite <- app_assoc. }
  rewrite Heq in Hsaltos |- *. clear Heq.
  apply Forall_app in Hsaltos as [_ Hsaltos].
  apply Forall_app in Hsaltos as [Hbloque Hresto].
  apply sublist_inserts_l. rewrite splitlines_join.
  - apply sublist_app; [done|]. by apply IH.
  - done.
  - intros x Hx. rewrite (app_comm_cons medio [ci] ap), last_snoc in Hx.
    injection Hx as <-. by apply es_patron_etiqueta_no_vacia.
Qed.

(** X16.  The blocks invent no line and keep the order of the text: their
    lines, one block after the other, are lines of the text in the order
    they have there. *)
Theorem ext_bloq_sublist (texto : str) :
  concat (splitlines <$> ext_bloq_comentados_patron_etiqueta texto)
  `sublist_of` splitlines texto.
Proof.
  apply emparejado_sublist.
  - apply ext_bloq_emparejado.
  - apply splitlines_sin_saltos.
Qed.
